(** * Wahay client: certificate provisioning

    A shallow embedding of [client/certificate.go] and of the
    configuration-file code of the same package, with the properties of
    the specification proved over it.

    Go's [byte] is [Byte.byte]; a Go [string] and a [[]byte] are both
    [list byte] (a Go string is an immutable byte sequence); file names
    are [string] keys of the file store. *)

From Stdlib Require Import List Bool NArith ZArith Lia.
From Stdlib Require Import Strings.Byte Strings.String.
From stdpp Require Import base option strings gmap.
Import ListNotations.

Local Open Scope byte_scope.
Local Open Scope list_scope.

(** A Go string literal, as its bytes. *)
Definition B (s : string) : list byte := list_byte_of_string s.

Definition byte_val (b : byte) : N := Byte.to_N b.

(** A Go [error] is its message; a result of type [error] is
    [option error], [None] for [nil]. *)
Definition error : Type := string.

Definition isOk {A E : Type} (r : A + E) : bool :=
  match r with
  | inl _ => true
  | inr _ => false
  end.

Definition mapOk {A B E : Type} (f : A -> B) (r : A + E) : B + E :=
  match r with
  | inl a => inl (f a)
  | inr e => inr e
  end.

(** Go's [a >= b] and [a <= b] on bytes. *)
Definition byte_ge (a b : byte) : bool := (byte_val b <=? byte_val a)%N.
Definition byte_le (a b : byte) : bool := (byte_val a <=? byte_val b)%N.

(** [strings.HasPrefix] and [strings.HasSuffix]; [bytes] has the same. *)
Fixpoint hasPrefix (s prefix : list byte) {struct prefix} : bool :=
  match prefix, s with
  | [], _ => true
  | p :: prefix', c :: s' => Byte.eqb p c && hasPrefix s' prefix'
  | _ :: _, [] => false
  end.

Definition hasSuffix (s suffix : list byte) : bool :=
  hasPrefix (rev s) (rev suffix).

Fixpoint bytes_eqb (x y : list byte) : bool :=
  match x, y with
  | [], [] => true
  | a :: x', b :: y' => Byte.eqb a b && bytes_eqb x' y'
  | _, _ => false
  end.

(** ** encoding/hex *)
Module hex.

Definition hextable : list byte := B "0123456789abcdef".

Definition digit (n : N) : byte := nth (N.to_nat n) hextable "0".

(** [hex.EncodeToString]: two lower-case digits per byte, high nibble
    first. *)
Definition EncodeToString (src : list byte) : list byte :=
  flat_map (fun v => [digit (N.shiftr (byte_val v) 4);
                      digit (N.land (byte_val v) 15)]) src.

End hex.

(** The byte of a number below 256 (the low eight bits otherwise). *)
Definition byte_of (n : N) : byte :=
  match Byte.of_N (n mod 256) with
  | Some b => b
  | None => x00
  end.

(** ** strings and bytes

    The two packages have the same functions, one on [string] and one on
    [[]byte]; both are [list byte] here. *)
Module strings.

(** [Index]: where the first instance of [substr] starts in [s]; [None]
    is Go's [-1]. *)
Fixpoint Index (s substr : list byte) : option nat :=
  if hasPrefix s substr then Some 0
  else
    match s with
    | [] => None
    | _ :: s' => S <$> Index s' substr
    end.

Definition Contains (s substr : list byte) : bool :=
  match Index s substr with
  | Some _ => true
  | None => false
  end.

Definition IndexByte (s : list byte) (c : byte) : option nat := Index s [c].

(** [Cut]: [s] around the first instance of [sep]. *)
Definition Cut (s sep : list byte) : list byte * list byte * bool :=
  match Index s sep with
  | Some i => (firstn i s, skipn (i + length sep) s, true)
  | None => (s, [], false)
  end.

(** [Count], for a pattern that is not empty: the instances of [substr]
    in [s] that do not overlap, found from left to right. No caller here
    passes an empty pattern, for which Go counts runes. *)
Fixpoint countLoop (fuel : nat) (s substr : list byte) : nat :=
  match fuel with
  | O => 0
  | S fuel' =>
      match Index s substr with
      | None => 0
      | Some i => S (countLoop fuel' (skipn (i + length substr) s) substr)
      end
  end.

Definition Count (s substr : list byte) : nat :=
  countLoop (length s) s substr.

(** The loop of [Replace]: [n] times, copy up to the next instance of
    [old], write [new] and go on after the instance; then copy the rest. *)
Fixpoint replaceLoop (n : nat) (s old new : list byte) : list byte :=
  match n with
  | O => s
  | S n' =>
      match Index s old with
      | None => s
      | Some j =>
          firstn j s ++ new ++ replaceLoop n' (skipn (j + length old) s) old new
      end
  end.

(** [Replace s old new n]: the first [n] instances of [old] replaced by
    [new], all of them when [n < 0]. As for [Count], [old] is not empty at
    any call here; with an empty [old] the model returns [s]. *)
Definition Replace (s old new : list byte) (n : Z) : list byte :=
  match old with
  | [] => s
  | _ :: _ =>
      if bytes_eqb old new || (n =? 0)%Z then s
      else
        let m := Count s old in
        if (m =? 0)%nat then s
        else
          let n' := if (n <? 0)%Z || (Z.of_nat m <? n)%Z then m
                    else Z.to_nat n in
          replaceLoop n' s old new
  end.

(** [TrimRight s " \t"]. *)
Definition isSpaceOrTab (c : byte) : bool :=
  Byte.eqb c " " || Byte.eqb c x09.

Fixpoint dropWhile (f : byte -> bool) (s : list byte) : list byte :=
  match s with
  | [] => []
  | c :: s' => if f c then dropWhile f s' else s
  end.

Definition TrimRightSpaceTab (s : list byte) : list byte :=
  rev (dropWhile isSpaceOrTab (rev s)).

End strings.

(** ** crypto/sha1 *)
Module sha1.

Definition Size : nat := 20.
Definition BlockSize : nat := 64.

Definition mask32 (x : N) : N := N.land x 0xFFFFFFFF.
Definition add32 (x y : N) : N := mask32 (x + y).
Definition rotl (k x : N) : N :=
  mask32 (N.lor (N.shiftl x k) (N.shiftr x (32 - k))).
Definition not32 (x : N) : N := N.lxor x 0xFFFFFFFF.

(** Big-endian 32-bit words of a byte sequence, and back. *)
Fixpoint words (bs : list byte) : list N :=
  match bs with
  | b0 :: b1 :: b2 :: b3 :: rest =>
      (N.shiftl (byte_val b0) 24 + N.shiftl (byte_val b1) 16
       + N.shiftl (byte_val b2) 8 + byte_val b3)%N :: words rest
  | _ => []
  end.

Definition putUint32 (x : N) : list byte :=
  [byte_of (N.shiftr x 24); byte_of (N.shiftr x 16);
   byte_of (N.shiftr x 8); byte_of x].

Definition putUint64 (x : N) : list byte :=
  putUint32 (N.shiftr x 32) ++ putUint32 (mask32 x).

(** The message followed by [0x80], zeros up to 56 modulo 64, and the
    length in bits as eight bytes. *)
Definition pad (msg : list byte) : list byte :=
  let len := length msg in
  let zeros := (55 + 64 - len mod 64) mod 64 in
  msg ++ [x80] ++ repeat x00 zeros ++ putUint64 (8 * N.of_nat len).

(** The message schedule: [n] more words after the sixteen of the block. *)
Fixpoint schedule (n : nat) (w : list N) : list N :=
  match n with
  | O => w
  | S n' =>
      let t := length w in
      let x := N.lxor (N.lxor (nth (t - 3) w 0%N) (nth (t - 8) w 0%N))
                 (N.lxor (nth (t - 14) w 0%N) (nth (t - 16) w 0%N)) in
      schedule n' (w ++ [rotl 1 x])
  end.

Definition state : Type := N * N * N * N * N.

Definition init : state :=
  (0x67452301, 0xEFCDAB89, 0x98BADCFE, 0x10325476, 0xC3D2E1F0)%N.

Definition round (t : nat) (wt : N) (s : state) : state :=
  let '(a, b, c, d, e) := s in
  let '(f, k) :=
    if (t <? 20)%nat then
      (N.lor (N.land b c) (N.land (not32 b) d), 0x5A827999%N)
    else if (t <? 40)%nat then
      (N.lxor (N.lxor b c) d, 0x6ED9EBA1%N)
    else if (t <? 60)%nat then
      (N.lor (N.lor (N.land b c) (N.land b d)) (N.land c d), 0x8F1BBCDC%N)
    else
      (N.lxor (N.lxor b c) d, 0xCA62C1D6%N) in
  (add32 (add32 (add32 (add32 (rotl 5 a) f) e) wt) k, a, rotl 30 b, c, d).

Fixpoint rounds (t : nat) (w : list N) (s : state) : state :=
  match w with
  | [] => s
  | wt :: w' => rounds (S t) w' (round t wt s)
  end.

Definition block (s : state) (p : list byte) : state :=
  let '(h0, h1, h2, h3, h4) := s in
  let '(a, b, c, d, e) := rounds 0 (schedule 64 (words p)) s in
  (add32 h0 a, add32 h1 b, add32 h2 c, add32 h3 d, add32 h4 e).

Fixpoint blocks (n : nat) (s : state) (p : list byte) : state :=
  match n with
  | O => s
  | S n' => blocks n' (block s (firstn BlockSize p)) (skipn BlockSize p)
  end.

(** The digest of everything written: twenty bytes. *)
Definition checkSum (msg : list byte) : list byte :=
  let p := pad msg in
  let '(h0, h1, h2, h3, h4) := blocks (length p / BlockSize) init p in
  putUint32 h0 ++ putUint32 h1 ++ putUint32 h2 ++ putUint32 h3
  ++ putUint32 h4.

(** A [hash.Hash] in progress is what has been written to it. [Write]
    never returns an error; [Sum] appends the digest to its argument. *)
Definition digest : Type := list byte.
Definition New : digest := [].
Definition Write (h : digest) (p : list byte)
  : digest * nat * option (list byte) := (h ++ p, length p, None).
Definition Sum (h : digest) (b : list byte) : list byte := b ++ checkSum h.

End sha1.

(** ** encoding/base64 *)
Module base64.

(** The value of a character of the standard alphabet. *)
Definition decodeMap (c : byte) : option N :=
  if byte_ge c "A" && byte_le c "Z" then Some (byte_val c - byte_val "A")%N
  else if byte_ge c "a" && byte_le c "z" then
    Some (byte_val c - byte_val "a" + 26)%N
  else if byte_ge c "0" && byte_le c "9" then
    Some (byte_val c - byte_val "0" + 52)%N
  else if Byte.eqb c "+" then Some 62%N
  else if Byte.eqb c "/" then Some 63%N
  else None.

Definition isNewline (c : byte) : bool := Byte.eqb c x0a || Byte.eqb c x0d.

(** Quanta of four characters, the last one padded with [=] when it
    stands for one or two bytes; nothing may follow the padding. *)
Fixpoint decodeQuanta (src : list byte) : option (list byte) :=
  match src with
  | [] => Some []
  | c0 :: c1 :: c2 :: c3 :: rest =>
      v0 ← decodeMap c0;
      v1 ← decodeMap c1;
      let val2 := (N.shiftl v0 18 + N.shiftl v1 12)%N in
      if Byte.eqb c2 "=" then
        if Byte.eqb c3 "=" then
          match rest with
          | [] => Some [byte_of (N.shiftr val2 16)]
          | _ :: _ => None
          end
        else None
      else
        v2 ← decodeMap c2;
        let val3 := (val2 + N.shiftl v2 6)%N in
        if Byte.eqb c3 "=" then
          match rest with
          | [] => Some [byte_of (N.shiftr val3 16); byte_of (N.shiftr val3 8)]
          | _ :: _ => None
          end
        else
          v3 ← decodeMap c3;
          let val := (val3 + v3)%N in
          app [byte_of (N.shiftr val 16); byte_of (N.shiftr val 8);
               byte_of val] <$> decodeQuanta rest
  | _ => None
  end.

(** [StdEncoding.Decode]: line breaks are skipped wherever they are. *)
Definition StdEncoding_Decode (src : list byte) : option (list byte) :=
  decodeQuanta (filter (fun c => negb (isNewline c)) src).

Definition encodeStd : list byte :=
  B "ABCDEFGHIJKLMNOPQRSTUVWXYZabcdefghijklmnopqrstuvwxyz0123456789+/".

Definition char (v : N) : byte := nth (N.to_nat (N.land v 63)) encodeStd "A".

(** [StdEncoding.EncodeToString]. *)
Fixpoint StdEncoding_Encode (src : list byte) : list byte :=
  match src with
  | [] => []
  | [b0] =>
      let val := N.shiftl (byte_val b0) 16 in
      [char (N.shiftr val 18); char (N.shiftr val 12); "="; "="]
  | [b0; b1] =>
      let val := (N.shiftl (byte_val b0) 16 + N.shiftl (byte_val b1) 8)%N in
      [char (N.shiftr val 18); char (N.shiftr val 12);
       char (N.shiftr val 6); "="]
  | b0 :: b1 :: b2 :: rest =>
      let val := (N.shiftl (byte_val b0) 16 + N.shiftl (byte_val b1) 8
                  + byte_val b2)%N in
      [char (N.shiftr val 18); char (N.shiftr val 12);
       char (N.shiftr val 6); char val] ++ StdEncoding_Encode rest
  end.

End base64.

(** ** encoding/pem *)
Module pem.

(** A block; its headers are not kept, no caller reads them. *)
Record Block : Type := { Type_ : list byte; Bytes : list byte }.

Definition pemStart : list byte := x0a :: B "-----BEGIN ".
Definition pemEnd : list byte := x0a :: B "-----END ".
Definition pemEndOfLine : list byte := B "-----".
Definition colon : list byte := B ":".

Definition getLine (data : list byte) : list byte * list byte :=
  match strings.IndexByte data x0a with
  | None => (strings.TrimRightSpaceTab data, [])
  | Some i =>
      let i' :=
        if (0 <? i)%nat && Byte.eqb (nth (i - 1) data x00) x0d then i - 1
        else i in
      (strings.TrimRightSpaceTab (firstn i' data), skipn (i + 1) data)
  end.

Definition removeSpacesAndTabs (data : list byte) : list byte :=
  filter (fun c => negb (strings.isSpaceOrTab c)) data.

(** The header lines: every line with a colon in it. The result is
    [None] when the data ends in them, else whether there was a header
    and what comes after the last one. *)
Fixpoint headers (fuel : nat) (seen : bool) (rest : list byte)
  : option (bool * list byte) :=
  match fuel with
  | O => None
  | S fuel' =>
      match rest with
      | [] => None
      | _ :: _ =>
          let '(line, next) := getLine rest in
          if strings.Contains line colon then headers fuel' true next
          else Some (seen, rest)
      end
  end.

(** One pass of the loop of [Decode] on what follows a BEGIN marker:
    the block, or [None] where the Go code says [continue]; [inr tt]
    where it gives up ([return nil, data]). *)
Definition decodeAfterStart (rest0 : list byte)
  : (option Block * list byte) + unit :=
  let '(typeLine0, rest1) := getLine rest0 in
  if negb (hasSuffix typeLine0 pemEndOfLine) then inl (None, rest1)
  else
    let typeLine := firstn (length typeLine0 - length pemEndOfLine) typeLine0 in
    match headers (S (length rest1)) false rest1 with
    | None => inr tt
    | Some (seen, rest) =>
        let ends :=
          if negb seen && hasPrefix rest (tl pemEnd) then
            Some (0, length pemEnd - 1)
          else
            match strings.Index rest pemEnd with
            | Some i => Some (i, i + length pemEnd)
            | None => None
            end in
        match ends with
        | None => inl (None, rest)
        | Some (endIndex, endTrailerIndex) =>
            let endTrailer0 := skipn endTrailerIndex rest in
            let endTrailerLen := length typeLine + length pemEndOfLine in
            if (length endTrailer0 <? endTrailerLen)%nat then inl (None, rest)
            else
              let restOfEndLine := skipn endTrailerLen endTrailer0 in
              let endTrailer := firstn endTrailerLen endTrailer0 in
              if negb (hasPrefix endTrailer typeLine)
                 || negb (hasSuffix endTrailer pemEndOfLine)
              then inl (None, rest)
              else if negb (length (fst (getLine restOfEndLine)) =? 0)%nat
              then inl (None, rest)
              else
                match base64.StdEncoding_Decode
                        (removeSpacesAndTabs (firstn endIndex rest)) with
                | None => inl (None, rest)
                | Some bs =>
                    inl (Some {| Type_ := typeLine; Bytes := bs |}, rest)
                end
        end
    end.

Fixpoint decodeLoop (fuel : nat) (rest : list byte) : option Block :=
  match fuel with
  | O => None
  | S fuel' =>
      let start :=
        if hasPrefix rest (tl pemStart) then
          Some (skipn (length pemStart - 1) rest)
        else
          match strings.Cut rest pemStart with
          | (_, after, true) => Some after
          | (_, _, false) => None
          end in
      match start with
      | None => None
      | Some rest0 =>
          match decodeAfterStart rest0 with
          | inr _ => None
          | inl (Some p, _) => Some p
          | inl (None, rest') => decodeLoop fuel' rest'
          end
      end
  end.

(** [Decode]: the first block of [data], or [None] for Go's [nil]. The
    second result of the Go function, the rest of the data, has no reader
    here. *)
Definition Decode (data : list byte) : option Block :=
  decodeLoop (S (length data)) data.

Definition pemLineLength : nat := 64.

(** The line breaker of [Encode]: a line break after every 64 characters
    and after what remains. *)
Fixpoint breakLines (fuel : nat) (s : list byte) : list byte :=
  match fuel with
  | O => []
  | S fuel' =>
      match s with
      | [] => []
      | _ :: _ =>
          firstn pemLineLength s ++ [x0a]
          ++ breakLines fuel' (skipn pemLineLength s)
      end
  end.

(** What [Encode] writes for a block without headers. *)
Definition EncodeToMemory (b : Block) : list byte :=
  let body := base64.StdEncoding_Encode (Bytes b) in
  tl pemStart ++ Type_ b ++ pemEndOfLine ++ [x0a]
  ++ breakLines (length body) body
  ++ tl pemEnd ++ Type_ b ++ pemEndOfLine ++ [x0a].

End pem.

(** ** net/url *)
Module url.

Record URL : Type := {
  Scheme : list byte;
  Opaque : list byte;
  User : option (list byte * option (list byte));
  Host : list byte;
  Path : list byte;
  ForceQuery : bool;
  RawQuery : list byte;
  Fragment : list byte
}.

(** The errors of the package, as values: what [errors.New] makes of a
    text, an [EscapeError] and an [InvalidHostError] with the piece of the
    text they are about, and what [fmt.Errorf] makes of
    ["invalid port %q after host"] and the text after the host. *)
Inductive reason : Type :=
| errorString (s : string)
| EscapeError (s : list byte)
| InvalidHostError (s : list byte)
| invalidPort (colonPort : list byte).

(** [*url.Error]: the operation, the text that was parsed and the
    reason. Its message is [Op], the quoted text and the message of the
    reason. *)
Record Error : Type := { Op : string; URL_ : list byte; Err : reason }.

Definition empty : URL :=
  {| Scheme := []; Opaque := []; User := None; Host := []; Path := [];
     ForceQuery := false; RawQuery := []; Fragment := [] |}.

Inductive encoding : Type :=
| encodePath | encodeHost | encodeZone | encodeUserPassword | encodeFragment.

Definition isHostMode (mode : encoding) : bool :=
  match mode with
  | encodeHost | encodeZone => true
  | _ => false
  end.

Definition isAlnum (c : byte) : bool :=
  (byte_ge c "a" && byte_le c "z") || (byte_ge c "A" && byte_le c "Z")
  || (byte_ge c "0" && byte_le c "9").

Definition ishex (c : byte) : bool :=
  (byte_ge c "0" && byte_le c "9") || (byte_ge c "a" && byte_le c "f")
  || (byte_ge c "A" && byte_le c "F").

Definition unhex (c : byte) : N :=
  if byte_ge c "0" && byte_le c "9" then byte_val c - byte_val "0"
  else if byte_ge c "a" && byte_le c "f" then byte_val c - byte_val "a" + 10
  else if byte_ge c "A" && byte_le c "F" then byte_val c - byte_val "A" + 10
  else 0.

(** [shouldEscape c encodeHost]: the bytes that may not stand in a host
    as they are. *)
Definition shouldEscapeHost (c : byte) : bool :=
  if isAlnum c then false
  else
    match c with
    | "!" | "$" | "&" | "'" | "(" | ")" | "*" | "+" | "," | ";" | "="
    | ":" | "[" | "]" | "<" | ">" | x22 => false
    | "-" | "_" | "." | "~" => false
    | _ => true
    end.

(** The first pass of [unescape]: the escapes are well-formed and, in a
    host, every byte is allowed there; the result is the error of the
    first place where this fails. *)
Fixpoint unescapeCheck (mode : encoding) (s : list byte) : option reason :=
  match s with
  | [] => None
  | c :: rest =>
      if Byte.eqb c "%" then
        match rest with
        | h1 :: h2 :: rest' =>
            if negb (ishex h1 && ishex h2) then Some (EscapeError [c; h1; h2])
            else if match mode with encodeHost => true | _ => false end
                    && (unhex h1 <? 8)%N
                    && negb (bytes_eqb [c; h1; h2] (B "%25"))
            then Some (EscapeError [c; h1; h2])
            else if match mode with encodeZone => true | _ => false end
                    && negb (bytes_eqb [c; h1; h2] (B "%25"))
                    && negb (Byte.eqb (byte_of (16 * unhex h1 + unhex h2)) " ")
                    && shouldEscapeHost (byte_of (16 * unhex h1 + unhex h2))
            then Some (EscapeError [c; h1; h2])
            else unescapeCheck mode rest'
        | _ => Some (EscapeError s)
        end
      else if isHostMode mode && (byte_val c <? 128)%N && shouldEscapeHost c
      then Some (InvalidHostError [c])
      else unescapeCheck mode rest
  end.

(** The second pass: every escape replaced by its byte. *)
Fixpoint unescapeBytes (s : list byte) : list byte :=
  match s with
  | [] => []
  | c :: rest =>
      if Byte.eqb c "%" then
        match rest with
        | h1 :: h2 :: rest' =>
            byte_of (16 * unhex h1 + unhex h2) :: unescapeBytes rest'
        | _ => [c]
        end
      else c :: unescapeBytes rest
  end.

Definition unescape (s : list byte) (mode : encoding) : list byte + reason :=
  match unescapeCheck mode s with
  | None => inl (unescapeBytes s)
  | Some e => inr e
  end.

Definition stringContainsCTLByte (s : list byte) : bool :=
  existsb (fun b => (byte_val b <? byte_val " ")%N || Byte.eqb b x7f) s.

Definition isLetter (c : byte) : bool :=
  (byte_ge c "a" && byte_le c "z") || (byte_ge c "A" && byte_le c "Z").

(** [getscheme], with the part of [rawurl] already read in [seen]
    (reversed): the scheme and what follows its colon. *)
Fixpoint getschemeLoop (rawurl seen rest : list byte)
  : list byte * list byte + reason :=
  match rest with
  | [] => inl ([], rawurl)
  | c :: rest' =>
      if isLetter c then getschemeLoop rawurl (c :: seen) rest'
      else if (byte_ge c "0" && byte_le c "9") || Byte.eqb c "+"
              || Byte.eqb c "-" || Byte.eqb c "." then
        match seen with
        | [] => inl ([], rawurl)
        | _ :: _ => getschemeLoop rawurl (c :: seen) rest'
        end
      else if Byte.eqb c ":" then
        match seen with
        | [] => inr (errorString "missing protocol scheme")
        | _ :: _ => inl (rev seen, rest')
        end
      else inl ([], rawurl)
  end.

Definition getscheme (rawurl : list byte) : list byte * list byte + reason :=
  getschemeLoop rawurl [] rawurl.

Definition toLower (c : byte) : byte :=
  if byte_ge c "A" && byte_le c "Z" then byte_of (byte_val c + 32) else c.

(** [split s sep cutc]: [s] around the first [sep], which stays at the
    head of the second part unless [cutc]. *)
Definition split (s : list byte) (sep : byte) (cutc : bool)
  : list byte * list byte :=
  match strings.IndexByte s sep with
  | None => (s, [])
  | Some i => (firstn i s, skipn (if cutc then i + 1 else i) s)
  end.

(** [strings.LastIndex s sep] for a separator of one byte. *)
Definition LastIndexByte (s : list byte) (c : byte) : option nat :=
  match strings.IndexByte (rev s) c with
  | None => None
  | Some i => Some (length s - 1 - i)
  end.

Definition validOptionalPort (port : list byte) : bool :=
  match port with
  | [] => true
  | c :: digits =>
      Byte.eqb c ":"
      && forallb (fun b => byte_ge b "0" && byte_le b "9") digits
  end.

Definition validUserinfo (s : list byte) : bool :=
  forallb (fun r =>
    isAlnum r ||
    match r with
    | "-" | "." | "_" | ":" | "~" | "!" | "$" | "&" | "'" | "(" | ")"
    | "*" | "+" | "," | ";" | "=" | "%" | "@" => true
    | _ => false
    end) s.

Definition parseHost (host : list byte) : list byte + reason :=
  let plain := unescape host encodeHost in
  if hasPrefix host (B "[") then
    match LastIndexByte host "]" with
    | None => inr (errorString "missing ']' in host")
    | Some i =>
        let colonPort := skipn (i + 1) host in
        if negb (validOptionalPort colonPort) then inr (invalidPort colonPort)
        else
          match strings.Index (firstn i host) (B "%25") with
          | Some zone =>
              match unescape (firstn zone host) encodeHost with
              | inr e => inr e
              | inl host1 =>
                  match unescape (skipn zone (firstn i host)) encodeZone with
                  | inr e => inr e
                  | inl host2 =>
                      match unescape (skipn i host) encodeHost with
                      | inr e => inr e
                      | inl host3 => inl (host1 ++ host2 ++ host3)
                      end
                  end
              end
          | None => plain
          end
    end
  else
    match LastIndexByte host ":" with
    | Some i =>
        if negb (validOptionalPort (skipn i host)) then
          inr (invalidPort (skipn i host))
        else plain
    | None => plain
    end.

Definition parseAuthority (authority : list byte)
  : option (list byte * option (list byte)) * list byte + reason :=
  match LastIndexByte authority "@" with
  | None =>
      match parseHost authority with
      | inr e => inr e
      | inl host => inl (None, host)
      end
  | Some i =>
      match parseHost (skipn (i + 1) authority) with
      | inr e => inr e
      | inl host =>
          let userinfo := firstn i authority in
          if negb (validUserinfo userinfo) then
            inr (errorString "net/url: invalid userinfo")
          else if negb (strings.Contains userinfo (B ":")) then
            match unescape userinfo encodeUserPassword with
            | inr e => inr e
            | inl username => inl (Some (username, None), host)
            end
          else
            let '(username0, password0) := split userinfo ":" true in
            match unescape username0 encodeUserPassword with
            | inr e => inr e
            | inl username =>
                match unescape password0 encodeUserPassword with
                | inr e => inr e
                | inl password => inl (Some (username, Some password), host)
                end
            end
      end
  end.

(** [parse rawurl false]. *)
Definition parse (rawurl : list byte) : URL + reason :=
  if stringContainsCTLByte rawurl then
    inr (errorString "net/url: invalid control character in URL")
  else if bytes_eqb rawurl (B "*") then
    inl {| Scheme := []; Opaque := []; User := None; Host := [];
           Path := B "*"; ForceQuery := false; RawQuery := [];
           Fragment := [] |}
  else
    match getscheme rawurl with
    | inr e => inr e
    | inl (scheme0, rest0) =>
        let scheme := map toLower scheme0 in
        let '(rest1, force, query) :=
          if hasSuffix rest0 (B "?")
             && (strings.Count rest0 (B "?") =? 1)%nat
          then (firstn (length rest0 - 1) rest0, true, [])
          else let '(r, q) := split rest0 "?" true in (r, false, q) in
        let opaque :=
          negb (hasPrefix rest1 (B "/"))
          && negb (length scheme =? 0)%nat in
        let colonFirst :=
          negb (hasPrefix rest1 (B "/"))
          && match strings.Index rest1 (B ":"), strings.Index rest1 (B "/") with
             | Some colon, Some slash => (colon <? slash)%nat
             | Some _, None => true
             | None, _ => false
             end in
        if opaque then
          inl {| Scheme := scheme; Opaque := rest1; User := None; Host := [];
                 Path := []; ForceQuery := force; RawQuery := query;
                 Fragment := [] |}
        else if colonFirst then
          inr (errorString "first path segment in URL cannot contain colon")
        else
          let withAuthority :=
            (negb (length scheme =? 0)%nat || negb (hasPrefix rest1 (B "///")))
            && hasPrefix rest1 (B "//") in
          let '(authority, rest2) :=
            if withAuthority then split (skipn 2 rest1) "/" false
            else ([], rest1) in
          match (if withAuthority then parseAuthority authority
                 else inl (None, [])) with
          | inr e => inr e
          | inl (user, host) =>
              match unescape rest2 encodePath with
              | inr e => inr e
              | inl path =>
                  inl {| Scheme := scheme; Opaque := []; User := user;
                         Host := host; Path := path; ForceQuery := force;
                         RawQuery := query; Fragment := [] |}
              end
          end
    end.

(** [Parse]: the fragment is cut off first and set last. An error of
    the fragment is reported with the whole text, any other one with the
    text before the fragment. *)
Definition Parse (rawurl : list byte) : URL + Error :=
  let '(u, frag) := split rawurl "#" true in
  match parse u with
  | inr e => inr {| Op := "parse"; URL_ := u; Err := e |}
  | inl url =>
      match frag with
      | [] => inl url
      | _ :: _ =>
          match unescape frag encodeFragment with
          | inr e => inr {| Op := "parse"; URL_ := rawurl; Err := e |}
          | inl f =>
              inl {| Scheme := Scheme url; Opaque := Opaque url;
                     User := User url; Host := Host url; Path := Path url;
                     ForceQuery := ForceQuery url; RawQuery := RawQuery url;
                     Fragment := f |}
          end
      end
  end.

End url.

(** ** net *)
Module net.

(** [*net.AddrError]: what is wrong and the address it is wrong with. *)
Record AddrError : Type := { Err : string; Addr : list byte }.

(** Its message: the address, when there is one, before what is wrong. *)
Definition Error (e : AddrError) : string :=
  match Addr e with
  | [] => Err e
  | _ :: _ =>
      ("address " ++ string_of_list_byte (Addr e) ++ ": " ++ Err e)%string
  end.

Definition missingPort : string := "missing port in address".
Definition tooManyColons : string := "too many colons in address".

Definition addrErr (addr : list byte) (why : string) : AddrError :=
  {| Err := why; Addr := addr |}.

Definition SplitHostPort (hostport : list byte)
  : list byte * list byte + AddrError :=
  match url.LastIndexByte hostport ":" with
  | None => inr (addrErr hostport missingPort)
  | Some i =>
      let checked : (list byte * nat * nat) + AddrError :=
        if hasPrefix hostport (B "[") then
          match strings.IndexByte hostport "]" with
          | None => inr (addrErr hostport "missing ']' in address")
          | Some end_ =>
              if (end_ + 1 =? length hostport)%nat then
                inr (addrErr hostport missingPort)
              else if (end_ + 1 =? i)%nat then
                inl (firstn (end_ - 1) (skipn 1 hostport), 1, end_ + 1)
              else if Byte.eqb (nth (end_ + 1) hostport x00) ":" then
                inr (addrErr hostport tooManyColons)
              else inr (addrErr hostport missingPort)
          end
        else
          let host := firstn i hostport in
          if strings.Contains host (B ":") then
            inr (addrErr hostport tooManyColons)
          else inl (host, 0, 0) in
      match checked with
      | inr e => inr e
      | inl (host, j, k) =>
          if strings.Contains (skipn j hostport) (B "[") then
            inr (addrErr hostport "unexpected '[' in address")
          else if strings.Contains (skipn k hostport) (B "]") then
            inr (addrErr hostport "unexpected ']' in address")
          else inl (host, skipn (i + 1) hostport)
      end
  end.

End net.

(** ** The @ByteArray literal of Mumble's configuration files *)

Definition byteArrayIsHex (b : byte) : bool :=
  match b with
  | "0" | "1" | "2" | "3" | "4" | "5" | "6" | "7" | "8" | "9" => true
  | "a" | "b" | "c" | "d" | "e" | "f" => true
  | "A" | "B" | "C" | "D" | "E" | "F" => true
  | _ => false
  end.

Definition byteArrayPrefix : list byte := B "@ByteArray(".
Definition byteArraySuffix : list byte := B ")".

Definition byteArrayIsDigit (b : byte) : bool :=
  byte_ge b "0" && byte_le b "9".

(** The Go character literals that have no printable spelling here:
    ['\t'] is [x09], ['\r'] [x0d], ['\a'] [x07], ['\b'] [x08], ['\v']
    [x0b], ['\f'] [x0c], ['\n'] [x0a], [0] [x00], the double quote [x22]
    and the backslash [x5c]. *)
Definition byteArrayIsPrintable (b : byte) : bool :=
  if byte_ge b "a" && byte_le b "z" then true
  else if byte_ge b "A" && byte_le b "Z" then true
  else if byteArrayIsDigit b then true
  else
    match b with
    | "*" | "+" | "'" | " " | "," | ";" | "`" | "~" | "{" | "}" | "("
    | "[" | ")" | "]" | ":" | "." | "$" | "|" | "/" | "&" | "^" | "="
    | "-" | "%" | "<" | ">" | "!" | "#" | "_" | "@" | "?" => true
    | _ => false
    end.

Definition byteArrayIsSpecial (b : byte) : bool :=
  match b with
  | x09 | x0d | x07 | x08 | x0b | x0c | x0a | x00 | x22 | x5c => true
  | _ => false
  end.

Definition byteArrayFormatSpecial (b : byte) : list byte * bool :=
  match b with
  | x09 => (B "\t", false)
  | x0d => (B "\r", false)
  | x07 => (B "\a", false)
  | x08 => (B "\b", false)
  | x0b => (B "\v", false)
  | x0c => (B "\f", false)
  | x0a => (B "\n", false)
  | x00 => (B "\0", true)
  | x22 => ([x5c; x22], false)
  | x5c => (B "\\", false)
  | _ => ([], false)
  end.

Definition byteArrayFormatEscaped (b : byte) : list byte * bool :=
  let out := hex.EncodeToString [b] in
  match out with
  | "0" :: out1 => (B "\x" ++ out1, true)
  | _ => (B "\x" ++ out, true)
  end.

Definition byteArrayUnparseByte (b : byte) (previousHexBefore : bool)
  : list byte * bool :=
  if byteArrayIsHex b && previousHexBefore then byteArrayFormatEscaped b
  else if byteArrayIsPrintable b then ([b], false)
  else if byteArrayIsSpecial b then byteArrayFormatSpecial b
  else byteArrayFormatEscaped b.

(** The loop of [byteArrayUnparse]: the fragments of the bytes of [bs],
    in order, with [hexBefore] carried from one byte to the next. *)
Fixpoint unparseLoop (bs : list byte) (hexBefore : bool) : list (list byte) :=
  match bs with
  | [] => []
  | b :: bs' =>
      let '(bb, hexBefore') := byteArrayUnparseByte b hexBefore in
      bb :: unparseLoop bs' hexBefore'
  end.

Definition byteArrayUnparse (bs : list byte) : list byte :=
  concat ([byteArrayPrefix] ++ unparseLoop bs false ++ [byteArraySuffix]).

(** *** Parsing the literal back *)

(** Modelled from the spec: the value of a hexadecimal digit of an
    escape, in either case. *)
Definition unhex (c : byte) : N :=
  if byteArrayIsDigit c then byte_val c - byte_val "0"
  else if byte_ge c "a" && byte_le c "f" then byte_val c - byte_val "a" + 10
  else byte_val c - byte_val "A" + 10.

(** Modelled from the spec: the byte named by the second character of a
    two-character escape; the inverse of [byteArrayFormatSpecial]. The
    parser of the literal is not among the source files. *)
Definition byteArrayParseSpecial (e : byte) : option byte :=
  match e with
  | "t" => Some x09
  | "r" => Some x0d
  | "a" => Some x07
  | "b" => Some x08
  | "v" => Some x0b
  | "f" => Some x0c
  | "n" => Some x0a
  | "0" => Some x00
  | x22 => Some x22
  | x5c => Some x5c
  | _ => None
  end.

(** Modelled from the spec: the left-to-right scan of the text between
    the prefix and the suffix. Each step consumes a literal printable
    character, a named two-character escape, or a hex escape of one or two
    digits (two when two hex digits follow the [x]). Anything else is not
    a literal and the scan fails. *)
Fixpoint byteArrayParseBody (s : list byte) : option (list byte) :=
  match s with
  | [] => Some []
  | c :: rest =>
      if Byte.eqb c x5c then
        match rest with
        | [] => None
        | e :: rest1 =>
            if Byte.eqb e "x" then
              match rest1 with
              | [] => None
              | h1 :: rest2 =>
                  if byteArrayIsHex h1 then
                    match rest2 with
                    | [] => v ← Byte.of_N (unhex h1); Some [v]
                    | h2 :: rest3 =>
                        if byteArrayIsHex h2 then
                          v ← Byte.of_N (16 * unhex h1 + unhex h2);
                          cons v <$> byteArrayParseBody rest3
                        else
                          v ← Byte.of_N (unhex h1);
                          cons v <$> byteArrayParseBody rest2
                    end
                  else None
              end
            else
              v ← byteArrayParseSpecial e;
              cons v <$> byteArrayParseBody rest1
        end
      else if byteArrayIsPrintable c then cons c <$> byteArrayParseBody rest
      else None
  end.

(** Modelled from the spec: the inverse of [byteArrayUnparse]: strip the
    prefix and the suffix, then scan what is between them. *)
Definition byteArrayParse (s : list byte) : option (list byte) :=
  if hasPrefix s byteArrayPrefix && hasSuffix s byteArraySuffix then
    byteArrayParseBody
      (firstn (length s - length byteArrayPrefix - length byteArraySuffix)
         (skipn (length byteArrayPrefix) s))
  else None.

(** ** The client, its files and its database *)

(** The files the client reads and writes: the contents by path. A write
    to a path in [readOnly] fails and changes nothing. *)
Record World : Type := {
  files : gmap string (list byte);
  readOnly : list string
}.

(** Modelled from the spec: [fileExists], the helper that tells whether
    a path exists; its source is not among the source files. *)
Definition fileExists (name : string) (w : World) : bool :=
  bool_decide (is_Some (files w !! name)).

Definition ReadFile (name : string) (w : World) : list byte + error :=
  match files w !! name with
  | Some content => inl content
  | None => inr "open: no such file or directory"%string
  end.

Definition WriteFile (name : string) (data : list byte) (w : World)
  : option error * World :=
  if bool_decide (name ∈ readOnly w) then
    (Some "open: permission denied"%string, w)
  else (None, {| files := <[name := data]> (files w); readOnly := readOnly w |}).

(** The fields of [client] that this code reads: the path of
    [mumble.ini], and the path of the database [.mumble.sqlite] that the
    client keeps next to it. *)
Record client : Type := {
  configFile : string;
  databaseFile : string
}.

Record dbData : Type := {
  filename : string;
  content : list byte
}.

(** Byte order of the two-byte port in the database. *)
Inductive ByteOrder : Type := BigEndian | LittleEndian.

Definition uint16 (x : Z) : N := Z.to_N (x mod 65536).

Definition putUint16 (order : ByteOrder) (x : N) : list byte :=
  match order with
  | BigEndian => [byte_of (N.shiftr x 8); byte_of x]
  | LittleEndian => [byte_of x; byte_of (N.shiftr x 8)]
  end.

Definition defaultHostToReplace : list byte :=
  B "ffaaffaabbddaabbddeeaaddccaaffeebbaabbeeddeeaaddbbeeeeff.onion".
Definition defaultPortToReplace : Z := 64738.
Definition defaultDigestToReplace : list byte :=
  B "AAABACADAFBABBBCBDBEBFCACBCCCDCECFDADBDC".

(** [fmt.Sprintf "%x"] of a byte slice: as [hex.EncodeToString]. *)
Definition Sprintf_x (bs : list byte) : list byte := hex.EncodeToString bs.

Definition digestForCertificate (cert : list byte)
  : list byte * option error :=
  let h := sha1.New in
  let '(h, _, err) := sha1.Write h cert in
  match err with
  | Some _ => ([], Some "sha1: write"%string)
  | None =>
      let bs := sha1.Sum h [] in
      (Sprintf_x bs, None)
  end.

Section Database.

(** The byte order of the port is not fixed by the specification:
    everything below is for either one. *)
Variable order : ByteOrder.

(** Modelled from the spec: [c.db()], which loads the database file of
    the client; it fails when there is no such file. The source of the
    database type is not among the source files. *)
Definition db (c : client) (w : World) : dbData + error :=
  match ReadFile (databaseFile c) w with
  | inl bs => inl {| filename := databaseFile c; content := bs |}
  | inr e => inr e
  end.

(** Modelled from the spec: [d.exists(k)], the scan for [k] as a
    substring of the database. *)
Definition exists_ (d : dbData) (k : list byte) : bool :=
  strings.Contains (content d) k.

(** Modelled from the spec: [d.replaceString(find, replace)], every
    instance of [find] replaced. *)
Definition replaceString (d : dbData) (find replace : list byte) : dbData :=
  {| filename := filename d;
     content := strings.Replace (content d) find replace (-1) |}.

(** Modelled from the spec: [d.replaceInteger(find, replace)], the same
    on the two bytes of the integers. *)
Definition replaceInteger (d : dbData) (find replace : N) : dbData :=
  {| filename := filename d;
     content := strings.Replace (content d) (putUint16 order find)
                  (putUint16 order replace) (-1) |}.

(** Modelled from the spec: [d.write()], the content written back to the
    file it was loaded from. *)
Definition write (d : dbData) (w : World) : option error * World :=
  WriteFile (filename d) (content d) w.

(** The two log entries of the source have no effect on the results and
    are left out. *)
Definition storeCertificateInDB (c : client) (id : list byte) (port : Z)
    (digest : list byte) (w : World) : option error * World :=
  match db c w with
  | inr err => (Some err, w)
  | inl db0 =>
      let db1 := replaceString db0 defaultHostToReplace id in
      let db2 := replaceString db1 defaultDigestToReplace digest in
      let db3 := replaceInteger db2 (uint16 defaultPortToReplace)
                   (uint16 port) in
      write db3 w
  end.

Definition isTheCertificateInDB (c : client) (hostname : list byte)
    (w : World) : bool :=
  match db c w with
  | inr _ => false
  | inl d => exists_ d hostname
  end.

Definition errInvalidCertificate : error := "invalid certificate"%string.

Definition storeCertificate (c : client) (hostname : list byte) (port : Z)
    (cert : list byte) (w : World) : option error * World :=
  if isTheCertificateInDB c hostname w then (None, w)
  else
    match pem.Decode cert with
    | None => (Some errInvalidCertificate, w)
    | Some block =>
        if negb (bytes_eqb (pem.Type_ block) (B "CERTIFICATE")) then
          (Some errInvalidCertificate, w)
        else
          let '(digest, err) := digestForCertificate (pem.Bytes block) in
          match err with
          | Some e => (Some e, w)
          | None => storeCertificateInDB c hostname port digest w
          end
    end.

End Database.

(** ** The address of the certificate server *)

(** The errors that [extractHostAndPort] returns: the one of [url.Parse]
    or the one of [net.SplitHostPort], as they are. *)
Inductive addressError : Type :=
| ParseError (e : url.Error)
| SplitError (e : net.AddrError).

Definition extractHostAndPort (address : list byte)
  : list byte * list byte + addressError :=
  match url.Parse address with
  | inr err => inr (ParseError err)
  | inl u =>
      match net.SplitHostPort (url.Host u) with
      | inr err => inr (SplitError err)
      | inl (host, port) => inl (host, port)
      end
  end.

(** ** Generating the certificate of the client *)

Module time.
(** A [Time] and a [Duration] are counts of nanoseconds. *)
Definition Time : Type := Z.
Definition Duration : Type := Z.
Definition Second : Duration := 1000000000%Z.
Definition Hour : Duration := (3600 * Second)%Z.
Definition Add (t : Time) (d : Duration) : Time := (t + d)%Z.
End time.

Module rsa.
Record PublicKey : Type := { N : Z; E : Z }.
Record PrivateKey : Type := { Public : PublicKey; D : Z; Primes : list Z }.
End rsa.

Module x509.

(** The bits of a [KeyUsage], [1 << iota] in this order. *)
Inductive KeyUsageBit : Type :=
| DigitalSignature | ContentCommitment | KeyEncipherment | DataEncipherment
| KeyAgreement | CertSign | CRLSign | EncipherOnly | DecipherOnly.

Definition bitIndex (u : KeyUsageBit) : N :=
  match u with
  | DigitalSignature => 0
  | ContentCommitment => 1
  | KeyEncipherment => 2
  | DataEncipherment => 3
  | KeyAgreement => 4
  | CertSign => 5
  | CRLSign => 6
  | EncipherOnly => 7
  | DecipherOnly => 8
  end.

Definition KeyUsage : Type := N.
Definition KeyUsageDigitalSignature : KeyUsage := N.shiftl 1 0.
Definition KeyUsageKeyEncipherment : KeyUsage := N.shiftl 1 2.
Definition hasUsage (k : KeyUsage) (u : KeyUsageBit) : bool :=
  N.testbit k (bitIndex u).

(** The fields of [x509.Certificate] that the template sets; the others
    keep their zero values. *)
Record Certificate : Type := {
  SerialNumber : Z;
  Subject_CommonName : list byte;
  NotBefore : time.Time;
  NotAfter : time.Time;
  SubjectKeyId : list byte;
  KeyUsage_ : KeyUsage
}.

End x509.

Module os.
Inductive OpenFlag : Type := O_CREATE | O_WRONLY | O_TRUNC.
(** A file mode is its permission bits; [0600] is [0o600]. *)
Definition FileMode : Type := N.
Definition File : Type := nat.
(** The mode [0600]: read and write for the owner, nothing for the others. *)
Definition mode0600 : FileMode := (6 * 64 + 0 * 8 + 0)%N.
End os.

(** What [genCertInto] asks of its environment, with the type of the
    answer: the clock, the key generator and the certificate signer (both
    read [rand.Reader]), the encoder of the key and the file system. The
    writes that [pem.Encode] makes to a file are taken as one.
    [closeAndIgnore] is a helper of the package that is not among the
    source files: it is a call like the others. *)
Inductive call : Type -> Type :=
| Now : call time.Time
| GenerateKey (bits : Z) : call (rsa.PrivateKey + error)
| CreateCertificate (template parent : x509.Certificate)
    (pub : rsa.PublicKey) (priv : rsa.PrivateKey) : call (list byte + error)
| MarshalPKCS1PrivateKey (key : rsa.PrivateKey) : call (list byte)
| OpenFile (name : string) (flag : list os.OpenFlag) (perm : os.FileMode)
  : call (os.File + error)
| Write (f : os.File) (data : list byte) : call (option error)
| CloseAndIgnore (f : os.File) : call unit.

(** A computation that makes such calls and ends with a result. *)
Inductive Prog (R : Type) : Type :=
| Ret (r : R)
| Vis {X : Type} (c : call X) (k : X -> Prog R).
Arguments Ret {R} r.
Arguments Vis {R X} c k.

Fixpoint bind {R S : Type} (p : Prog R) (k : R -> Prog S) : Prog S :=
  match p with
  | Ret r => k r
  | Vis c k' => Vis c (fun x => bind (k' x) k)
  end.

Definition trigger {X : Type} (c : call X) : Prog X := Vis c Ret.

Notation "'let*' x := c 'in' k" := (bind c (fun x => k))
  (at level 10, x pattern, c at level 100, k at level 200).

(** One call of a run and its answer. *)
Inductive event : Type :=
| Ev {X : Type} (c : call X) (x : X).

(** [runs p tr r]: [p] can make the calls of [tr], get the answers of
    [tr], and end with [r]. *)
Fixpoint runs {R : Type} (p : Prog R) (tr : list event) (r : R) : Prop :=
  match p with
  | Ret r' => tr = [] /\ r' = r
  | Vis c k => exists x tr', tr = Ev c x :: tr' /\ runs (k x) tr' r
  end.

Definition closeAndIgnore (f : os.File) : Prog unit :=
  trigger (CloseAndIgnore f).

Definition certTemplate (now : time.Time) : x509.Certificate :=
  {| x509.SerialNumber := 0%Z;
     x509.Subject_CommonName := B "Wahay Autogenerated Certificate";
     x509.NotBefore := time.Add now (-300 * time.Second)%Z;
     x509.NotAfter := time.Add now (24 * time.Hour * 365)%Z;
     x509.SubjectKeyId := [x01; x02; x03; x04];
     x509.KeyUsage_ :=
       N.lor x509.KeyUsageKeyEncipherment x509.KeyUsageDigitalSignature |}.

Definition createFlags : list os.OpenFlag :=
  [os.O_CREATE; os.O_WRONLY; os.O_TRUNC].

(** The deferred [closeAndIgnore] calls run when the function returns,
    the last one first. *)
Definition genCertInto (certFilename keyFilename : string)
  : Prog (option error) :=
  let* now := trigger Now in
  let tmpl := certTemplate now in
  let* r := trigger (GenerateKey 2048%Z) in
  match r with
  | inr err => Ret (Some err)
  | inl priv =>
      let* r := trigger (CreateCertificate tmpl tmpl (rsa.Public priv) priv) in
      match r with
      | inr err => Ret (Some err)
      | inl certbuf =>
          let certblk :=
            {| pem.Type_ := B "CERTIFICATE"; pem.Bytes := certbuf |} in
          let* keybuf := trigger (MarshalPKCS1PrivateKey priv) in
          let keyblk :=
            {| pem.Type_ := B "RSA PRIVATE KEY"; pem.Bytes := keybuf |} in
          let* r := trigger (OpenFile certFilename createFlags os.mode0600) in
          match r with
          | inr err => Ret (Some err)
          | inl file =>
              let* err := trigger (Write file (pem.EncodeToMemory certblk)) in
              match err with
              | Some e => let* _ := closeAndIgnore file in Ret (Some e)
              | None =>
                  let* r :=
                    trigger (OpenFile keyFilename createFlags os.mode0600) in
                  match r with
                  | inr e => let* _ := closeAndIgnore file in Ret (Some e)
                  | inl file2 =>
                      let* err :=
                        trigger (Write file2 (pem.EncodeToMemory keyblk)) in
                      let* _ := closeAndIgnore file2 in
                      let* _ := closeAndIgnore file in
                      Ret err
                  end
              end
          end
      end
  end.

(** ** The certificate in the format of the configuration file *)

(** What [generateTemporaryMumbleCertificate] asks of its environment
    beyond the calls of [genCertInto]: a temporary directory and its
    removal, the output of a command, and the content of a file. *)
Inductive oscall : Type -> Type :=
| GenCert {X : Type} (c : call X) : oscall X
| TempDir (dir pattern : string) : oscall (string + error)
| RemoveAll (path : string) : oscall (option error)
| CommandOutput (name : string) (args : list string)
  : oscall (list byte + error)
| ReadFileCall (name : string) : oscall (list byte + error).

Inductive Proc (R : Type) : Type :=
| PRet (r : R)
| PVis {X : Type} (c : oscall X) (k : X -> Proc R).
Arguments PRet {R} r.
Arguments PVis {R X} c k.

Fixpoint pbind {R S : Type} (p : Proc R) (k : R -> Proc S) : Proc S :=
  match p with
  | PRet r => k r
  | PVis c k' => PVis c (fun x => pbind (k' x) k)
  end.

Definition ptrigger {X : Type} (c : oscall X) : Proc X := PVis c PRet.

(** A computation of [genCertInto] as a part of a larger one. *)
Fixpoint lift {R : Type} (p : Prog R) : Proc R :=
  match p with
  | Ret r => PRet r
  | Vis c k => PVis (GenCert c) (fun x => lift (k x))
  end.

Notation "'do*' x := c 'in' k" := (pbind c (fun x => k))
  (at level 10, x pattern, c at level 100, k at level 200).

Inductive osevent : Type :=
| OsEv {X : Type} (c : oscall X) (x : X).

Fixpoint pruns {R : Type} (p : Proc R) (tr : list osevent) (r : R) : Prop :=
  match p with
  | PRet r' => tr = [] /\ r' = r
  | PVis c k => exists x tr', tr = OsEv c x :: tr' /\ pruns (k x) tr' r
  end.

Section TemporaryCertificate.

(** [filepath.Join] of a directory and a name, and [filepath.Clean]: what
    follows holds for any two such functions. *)
Variable Join : string -> string -> string.
Variable Clean : string -> string.

Definition opensslArgs (dir : string) : list string :=
  [ "pkcs12"; "-passout"; "pass:"; "-inkey"; Join dir "key.pem";
    "-in"; Join dir "cert.pem"; "-export"; "-out";
    Join dir "transformed.p12" ]%string.

(** The deferred [os.RemoveAll(dir)] runs when the function returns; what
    it answers is dropped. *)
Definition generateTemporaryMumbleCertificate
  : Proc (list byte * option error) :=
  do* r := ptrigger (TempDir "" "wahay_cert_generation") in
  match r with
  | inr err => PRet ([], Some err)
  | inl dir =>
      do* err := lift (genCertInto (Join dir "cert.pem") (Join dir "key.pem")) in
      match err with
      | Some e => do* _ := ptrigger (RemoveAll dir) in PRet ([], Some e)
      | None =>
          do* r := ptrigger (CommandOutput "openssl" (opensslArgs dir)) in
          match r with
          | inr e => do* _ := ptrigger (RemoveAll dir) in PRet ([], Some e)
          | inl _ =>
              do* r := ptrigger
                         (ReadFileCall (Clean (Join dir "transformed.p12"))) in
              match r with
              | inr e =>
                  do* _ := ptrigger (RemoveAll dir) in PRet ([], Some e)
              | inl data =>
                  do* _ := ptrigger (RemoveAll dir) in
                  PRet (byteArrayUnparse data, None)
              end
          end
      end
  end.

End TemporaryCertificate.

(** ** The files behind the calls of [genCertInto] *)












(** ** The configuration file *)

Definition errInvalidMumbleIni : error := "invalid mumble.ini file"%string.

Definition certificateToken : list byte := B "#CERTIFICATE".

Definition saveCertificateConfigFile (c : client) (cert : list byte)
    (w : World) : option error * World :=
  if (String.length (configFile c) =? 0)%nat
     || negb (fileExists (configFile c) w)
  then (Some errInvalidMumbleIni, w)
  else
    match ReadFile (configFile c) w with
    | inr err => (Some err, w)
    | inl content =>
        let certSectionProp :=
          strings.Replace content certificateToken
            (B "certificate=" ++ cert) 1 in
        WriteFile (configFile c) certSectionProp w
    end.


(** ** Auxiliary notions of the statements and proofs *)

(** What may follow an escape that ends in hex digits (or [\0]): the end
    of the text, or a character that is not a hex digit. *)
Definition startsNonHex (s : list byte) : Prop :=
  match s with
  | [] => True
  | c :: _ => byteArrayIsHex c = false
  end.

Definition option_byte_eqb (o : option byte) (b : byte) : bool :=
  match o with
  | Some v => Byte.eqb v b
  | None => false
  end.

(** The four shapes of a fragment that stands for the byte [b]: a literal,
    a named escape, a two-digit hex escape, and a one-digit hex escape,
    which must set the flag. *)
Definition fragmentFor (b : byte) (fr : list byte) (flag : bool) : bool :=
  match fr with
  | [c] => negb (Byte.eqb c x5c) && byteArrayIsPrintable c && Byte.eqb c b
  | [c; e] =>
      Byte.eqb c x5c && negb (Byte.eqb e "x")
      && option_byte_eqb (byteArrayParseSpecial e) b
  | [c; e; h1] =>
      Byte.eqb c x5c && Byte.eqb e "x" && byteArrayIsHex h1
      && option_byte_eqb (Byte.of_N (unhex h1)) b && flag
  | [c; e; h1; h2] =>
      Byte.eqb c x5c && Byte.eqb e "x" && byteArrayIsHex h1
      && byteArrayIsHex h2
      && option_byte_eqb (Byte.of_N (16 * unhex h1 + unhex h2)) b
  | _ => false
  end.

Definition headNonHex (s : list byte) : bool :=
  match s with
  | [] => false
  | c :: _ => negb (byteArrayIsHex c)
  end.

(** The bytes with a named escape, apart from NUL. *)
Definition namedEscapesButNul : list byte :=
  [x09; x0d; x07; x08; x0b; x0c; x0a; x22; x5c].

(** A PEM block of type CERTIFICATE around the six bytes [foobar]. *)
Definition pemSample : list byte :=
  B "-----BEGIN CERTIFICATE-----" ++ [x0a] ++ B "Zm9vYmFy" ++ [x0a]
  ++ B "-----END CERTIFICATE-----" ++ [x0a].


Definition isLowerHexDigit (c : byte) : bool :=
  (byte_ge c "0" && byte_le c "9") || (byte_ge c "a" && byte_le c "f").

(** A client with its two files, and the file store that holds just its
    database, with the content [d]. *)
Definition exampleClient : client :=
  {| configFile := "mumble.ini"; databaseFile := ".mumble.sqlite" |}.

Definition worldWithDatabase (d : list byte) : World :=
  {| files := {[ ".mumble.sqlite"%string := d ]}; readOnly := [] |}.

Definition databaseOf (w : World) : option (list byte) :=
  files w !! ".mumble.sqlite"%string.



(** The three placeholders are all absent from [d]. *)
Definition noPlaceholder (order : ByteOrder) (d : list byte) : bool :=
  negb (strings.Contains d defaultHostToReplace)
  && negb (strings.Contains d defaultDigestToReplace)
  && negb (strings.Contains d (putUint16 order (uint16 defaultPortToReplace))).

(** No instance of [p] starts in [s] before position [i]. *)
Definition noneBefore (s p : list byte) (i : nat) : Prop :=
  forall k, k < i -> hasPrefix (skipn k s) p = false.

Definition worldWithConfig (content : list byte) : World :=
  {| files := {[ "mumble.ini"%string := content ]}; readOnly := [] |}.

(** The calls of a run of [genCertInto] in which every call succeeds. *)
Definition successfulTrace (certFilename keyFilename : string)
    (now : time.Time) (priv : rsa.PrivateKey) (certbuf keybuf : list byte)
    (file file2 : os.File) : list event :=
  [ Ev Now now;
    Ev (GenerateKey 2048) (inl priv);
    Ev (CreateCertificate (certTemplate now) (certTemplate now)
          (rsa.Public priv) priv) (inl certbuf);
    Ev (MarshalPKCS1PrivateKey priv) keybuf;
    Ev (OpenFile certFilename [os.O_CREATE; os.O_WRONLY; os.O_TRUNC]
          os.mode0600) (inl file);
    Ev (Write file
          (pem.EncodeToMemory
             {| pem.Type_ := B "CERTIFICATE"; pem.Bytes := certbuf |})) None;
    Ev (OpenFile keyFilename [os.O_CREATE; os.O_WRONLY; os.O_TRUNC]
          os.mode0600) (inl file2);
    Ev (Write file2
          (pem.EncodeToMemory
             {| pem.Type_ := B "RSA PRIVATE KEY"; pem.Bytes := keybuf |})) None;
    Ev (CloseAndIgnore file2) tt;
    Ev (CloseAndIgnore file) tt ].

(** What the template of the certificate holds at the time [now]. *)
Definition templateAsSpecified (now : time.Time) : Prop :=
  let tmpl := certTemplate now in
  x509.SerialNumber tmpl = 0%Z
  /\ x509.Subject_CommonName tmpl = B "Wahay Autogenerated Certificate"
  /\ x509.NotBefore tmpl = (now - 300 * 1000000000)%Z
  /\ x509.NotAfter tmpl = (now + 365 * (24 * 3600 * 1000000000))%Z
  /\ x509.SubjectKeyId tmpl = [x01; x02; x03; x04]
  /\ forall u, x509.hasUsage (x509.KeyUsage_ tmpl) u = true
               <-> u = x509.KeyEncipherment \/ u = x509.DigitalSignature.

(** Owner read and owner write, and no other permission bit. *)
Definition ownerReadWriteOnly (m : os.FileMode) : Prop :=
  forall i, N.testbit m i = true <-> i = 8%N \/ i = 7%N.

Definition toyKey : rsa.PrivateKey :=
  {| rsa.Public := {| rsa.N := 3233; rsa.E := 17 |};
     rsa.D := 2753; rsa.Primes := [61%Z; 53%Z] |}.







(** ** Further notions: the literal as a text *)

(** The flag that the loop of [byteArrayUnparse] holds after the bytes of
    [bs], when it held [hexBefore] before them. *)
Fixpoint flagAfter (bs : list byte) (hexBefore : bool) : bool :=
  match bs with
  | [] => hexBefore
  | b :: bs' => flagAfter bs' (snd (byteArrayUnparseByte b hexBefore))
  end.

(** The characters from the space to the tilde. *)
Definition isPrintableASCII (c : byte) : bool :=
  (byte_val " " <=? byte_val c)%N && (byte_val c <=? byte_val "~")%N.

(** The value of a numeral of lower-case hexadecimal digits. *)
Definition lowerHexDigitValue (c : byte) : N :=
  if byte_ge c "0" && byte_le c "9" then byte_val c - byte_val "0"
  else byte_val c - byte_val "a" + 10.

Definition lowerHexValue (ds : list byte) : N :=
  fold_left (fun acc c => (16 * acc + lowerHexDigitValue c)%N) ds 0%N.

(** [ds] is the shortest lower-case hexadecimal numeral of the byte [b]:
    one digit below sixteen, two from sixteen on. *)
Definition shortestHexOf (b : byte) (ds : list byte) : bool :=
  forallb isLowerHexDigit ds
  && (lowerHexValue ds =? byte_val b)%N
  && (length ds =? (if (byte_val b <? 16)%N then 1 else 2))%nat.

(** The text of a literal without its last character, and without its
    first eleven. *)
Definition withoutSuffix (s : list byte) : list byte :=
  firstn (length s - length byteArraySuffix) s.
Definition withoutPrefix (s : list byte) : list byte :=
  skipn (length byteArrayPrefix) s.

(** ** Further notions: certificates and files *)

(** [cert] holds a PEM block of type CERTIFICATE, the check that
    [storeCertificate] makes. *)
Definition hasCertificateBlock (cert : list byte) : bool :=
  match pem.Decode cert with
  | Some block => bytes_eqb (pem.Type_ block) (B "CERTIFICATE")
  | None => false
  end.

(** A file store without the database of [exampleClient]. *)
Definition worldWithoutDatabase : World :=
  {| files := {[ "mumble.ini"%string := B "#CERTIFICATE" ]}; readOnly := [] |}.

(** ** Further notions: what a run did *)

(** The error that a call answered, if it answered one. *)
Definition callError {X : Type} (c : call X) : X -> option error :=
  match c in call X return X -> option error with
  | Now => fun _ => None
  | GenerateKey _ => fun r => match r with inr e => Some e | inl _ => None end
  | CreateCertificate _ _ _ _ =>
      fun r => match r with inr e => Some e | inl _ => None end
  | MarshalPKCS1PrivateKey _ => fun _ => None
  | OpenFile _ _ _ => fun r => match r with inr e => Some e | inl _ => None end
  | Write _ _ => fun r => r
  | CloseAndIgnore _ => fun _ => None
  end.

Definition eventError (e : event) : option error :=
  match e with
  | Ev c x => callError c x
  end.

Fixpoint firstError (tr : list event) : option error :=
  match tr with
  | [] => None
  | e :: tr' =>
      match eventError e with
      | Some err => Some err
      | None => firstError tr'
      end
  end.

(** The files that a run opened, with how it asked for them, and the
    files that it closed, both in the order of the calls. *)
Definition callOpened {X : Type} (c : call X)
  : X -> list (string * list os.OpenFlag * os.FileMode * os.File) :=
  match c in call X
        return X -> list (string * list os.OpenFlag * os.FileMode * os.File)
  with
  | OpenFile name flag perm =>
      fun r => match r with
               | inl f => [(name, flag, perm, f)]
               | inr _ => []
               end
  | _ => fun _ => []
  end.

Definition opened (tr : list event)
  : list (string * list os.OpenFlag * os.FileMode * os.File) :=
  flat_map (fun e => match e with Ev c x => callOpened c x end) tr.

Definition callClosed {X : Type} (c : call X) : list os.File :=
  match c with
  | CloseAndIgnore f => [f]
  | _ => []
  end.

Definition closed (tr : list event) : list os.File :=
  flat_map (fun e => match e with Ev c _ => callClosed c end) tr.

(** The calls of a run that are not an answer with an error come before
    every other one: nothing but closing follows a failure. *)
Fixpoint onlyClosesAfterError (tr : list event) : bool :=
  match tr with
  | [] => true
  | e :: tr' =>
      match eventError e with
      | Some _ =>
          forallb (fun e' => match e' with
                             | Ev (CloseAndIgnore _) _ => true
                             | Ev _ _ => false
                             end) tr'
      | None => onlyClosesAfterError tr'
      end
  end.

(** The directories that a run removed. *)
Definition removed (tr : list osevent) : list string :=
  flat_map (fun e => match e with
                     | OsEv (RemoveAll path) _ => [path]
                     | OsEv _ _ => []
                     end) tr.

(** The temporary directory that a run was given, if it was given one. *)
Definition tempDirOf (tr : list osevent) : option string :=
  match tr with
  | OsEv (TempDir _ _) (inl dir) :: _ => Some dir
  | _ => None
  end.

Definition isRemoveAll (e : osevent) (dir : string) : Prop :=
  exists x, e = OsEv (RemoveAll dir) x.

(** A run of [genCertInto] in which the key file cannot be opened. *)
Definition keyFileFailsTrace : list event :=
  [ Ev Now 0%Z;
    Ev (GenerateKey 2048) (inl toyKey);
    Ev (CreateCertificate (certTemplate 0%Z) (certTemplate 0%Z)
          (rsa.Public toyKey) toyKey) (inl [x30]);
    Ev (MarshalPKCS1PrivateKey toyKey) [x30];
    Ev (OpenFile "cert.pem" createFlags os.mode0600) (inl 3);
    Ev (Write 3 (pem.EncodeToMemory
                   {| pem.Type_ := B "CERTIFICATE"; pem.Bytes := [x30] |}))
       None;
    Ev (OpenFile "key.pem" createFlags os.mode0600)
       (inr "permission denied"%string);
    Ev (CloseAndIgnore 3) tt ].

(** How a file was asked for, without the file that was given. *)
Definition request (o : string * list os.OpenFlag * os.FileMode * os.File)
  : string * list os.OpenFlag * os.FileMode :=
  fst o.

Definition event_of (e : event) : osevent :=
  match e with
  | Ev c x => OsEv (GenCert c) x
  end.

(** The run of [generateTemporaryMumbleCertificate] in which every call
    succeeds. *)
Definition successfulOsTrace (Join : string -> string -> string)
    (Clean : string -> string) (dir : string) (now : time.Time)
    (priv : rsa.PrivateKey) (certbuf keybuf : list byte)
    (file file2 : os.File) (out data : list byte) (rm : option error)
  : list osevent :=
  [OsEv (TempDir "" "wahay_cert_generation") (inl dir)]
  ++ map event_of
       (successfulTrace (Join dir "cert.pem"%string)
          (Join dir "key.pem"%string) now priv
          certbuf keybuf file file2)
  ++ [ OsEv (CommandOutput "openssl" (opensslArgs Join dir)) (inl out);
       OsEv (ReadFileCall (Clean (Join dir "transformed.p12"%string)))
         (inl data);
       OsEv (RemoveAll dir) rm ].

(** A plain joining of a directory and a name, for the examples. *)
Definition joinWithSlash (dir name : string) : string :=
  (dir ++ "/" ++ name)%string.

(** What a run wrote, and to which file, in the order of the calls. *)
Definition callWritten {X : Type} (c : call X) : list (os.File * list byte) :=
  match c with
  | Write f data => [(f, data)]
  | _ => []
  end.

Definition written (tr : list event) : list (os.File * list byte) :=
  flat_map (fun e => match e with Ev c _ => callWritten c end) tr.

(** The certificate that the signer answered in a run and the encoding
    of the key that the encoder answered, empty when there was none. *)
Definition callCertificate {X : Type} (c : call X) : X -> list byte :=
  match c in call X return X -> list byte with
  | CreateCertificate _ _ _ _ =>
      fun r => match r with inl certbuf => certbuf | inr _ => [] end
  | _ => fun _ => []
  end.

Definition certificateOf (tr : list event) : list byte :=
  flat_map (fun e => match e with Ev c x => callCertificate c x end) tr.

Definition callKey {X : Type} (c : call X) : X -> list byte :=
  match c in call X return X -> list byte with
  | MarshalPKCS1PrivateKey _ => fun keybuf => keybuf
  | _ => fun _ => []
  end.

Definition keyOf (tr : list event) : list byte :=
  flat_map (fun e => match e with Ev c x => callKey c x end) tr.




(** * Properties *)

(** ** The library models on known vectors *)

Example sha1_abc :
  hex.EncodeToString (sha1.checkSum (B "abc"))
  = B "a9993e364706816aba3e25717850c26c9cd0d89d".
Proof. vm_compute. reflexivity. Qed.

Example sha1_empty :
  hex.EncodeToString (sha1.checkSum [])
  = B "da39a3ee5e6b4b0d3255bfef95601890afd80709".
Proof. vm_compute. reflexivity. Qed.

Example sha1_two_blocks :
  hex.EncodeToString (sha1.checkSum
    (B "abcdbcdecdefdefgefghfghighijhijkijkljklmklmnlmnomnopnopq"))
  = B "84983e441c3bd26ebaae4aa1f95129e5e54670f1".
Proof. vm_compute. reflexivity. Qed.

Example base64_vectors :
  base64.StdEncoding_Decode (B "Zm9vYmFy") = Some (B "foobar")
  /\ base64.StdEncoding_Decode (B "Zm9vYg==") = Some (B "foob")
  /\ base64.StdEncoding_Decode (B "Zm9vYmE=") = Some (B "fooba")
  /\ base64.StdEncoding_Decode (B "Zm9vYg=") = None
  /\ base64.StdEncoding_Decode (B "Zm9vY") = None.
Proof. vm_compute. repeat split. Qed.

Example pem_sample :
  pem.Decode pemSample
  = Some {| pem.Type_ := B "CERTIFICATE"; pem.Bytes := B "foobar" |}.
Proof. vm_compute. reflexivity. Qed.

Example pem_garbage : pem.Decode (B "not a certificate") = None.
Proof. vm_compute. reflexivity. Qed.

Example replace_vectors :
  strings.Replace (B "oink oink oink") (B "k") (B "ky") 2
  = B "oinky oinky oink"
  /\ strings.Replace (B "oink oink oink") (B "oink") (B "moo") (-1)
     = B "moo moo moo"
  /\ strings.Replace (B "aaaa") (B "aa") (B "b") (-1) = B "bb"
  /\ strings.Index (B "chicken") (B "ken") = Some 4
  /\ strings.Index (B "chicken") (B "dmr") = None.
Proof. vm_compute. repeat split. Qed.

Example url_vectors :
  mapOk url.Host (url.Parse (B "http://host:1234/path")) = inl (B "host:1234")
  /\ mapOk url.Host (url.Parse (B "http://user:pw@host.example/a?b#c"))
     = inl (B "host.example")
  /\ mapOk url.Host (url.Parse (B "not a url")) = inl []
  /\ mapOk url.Path (url.Parse (B "not a url")) = inl (B "not a url")
  /\ mapOk url.Opaque (url.Parse (B "mailto:a@b.c")) = inl (B "a@b.c")
  /\ mapOk url.Host (url.Parse (B "http://[::1]:80/")) = inl (B "[::1]:80")
  /\ isOk (url.Parse (B "http://host:12x4/")) = false
  /\ isOk (url.Parse (B "http://ho st/")) = false
  /\ isOk (url.Parse (B ":foo")) = false
  /\ isOk (url.Parse (B "a:b/c")) = true
  /\ isOk (url.Parse (B "a b:c/d")) = false
  /\ url.Parse (B ":foo")
     = inr {| url.Op := "parse"; url.URL_ := B ":foo";
              url.Err := url.errorString "missing protocol scheme" |}
  /\ url.Parse (B "http://host:12x4/#f")
     = inr {| url.Op := "parse"; url.URL_ := B "http://host:12x4/";
              url.Err := url.invalidPort (B ":12x4") |}
  /\ url.Parse (B "http://ho st/")
     = inr {| url.Op := "parse"; url.URL_ := B "http://ho st/";
              url.Err := url.InvalidHostError (B " ") |}
  /\ url.Parse (B "http://host/%zz")
     = inr {| url.Op := "parse"; url.URL_ := B "http://host/%zz";
              url.Err := url.EscapeError (B "%zz") |}
  /\ url.Parse (B "http://host/#%z")
     = inr {| url.Op := "parse"; url.URL_ := B "http://host/#%z";
              url.Err := url.EscapeError (B "%z") |}.
Proof. vm_compute. repeat split. Qed.

Example splitHostPort_vectors :
  net.SplitHostPort (B "host:1234") = inl (B "host", B "1234")
  /\ net.SplitHostPort (B "[::1]:80") = inl (B "::1", B "80")
  /\ net.SplitHostPort (B "host:") = inl (B "host", [])
  /\ net.SplitHostPort (B "host")
     = inr (net.addrErr (B "host") net.missingPort)
  /\ net.SplitHostPort (B "[::1]")
     = inr (net.addrErr (B "[::1]") net.missingPort)
  /\ net.SplitHostPort (B "a:b:c")
     = inr (net.addrErr (B "a:b:c") net.tooManyColons)
  /\ net.SplitHostPort [] = inr (net.addrErr [] net.missingPort)
  /\ net.Error (net.addrErr (B "host") net.missingPort)
     = "address host: missing port in address"%string
  /\ net.Error (net.addrErr [] net.missingPort)
     = "missing port in address"%string.
Proof. vm_compute. repeat split. Qed.

Example pem_encode_sample :
  pem.EncodeToMemory {| pem.Type_ := B "CERTIFICATE"; pem.Bytes := B "foobar" |}
  = pemSample.
Proof. vm_compute. reflexivity. Qed.

Example pem_encode_decode_long :
  let blk := {| pem.Type_ := B "RSA PRIVATE KEY";
                pem.Bytes := repeat xff 50 ++ [x00; x01] |} in
  pem.Decode (pem.EncodeToMemory blk) = Some blk
  /\ length (pem.EncodeToMemory blk) = 32 + 65 + 9 + 30.
Proof. vm_compute. split; reflexivity. Qed.

(** ** The @ByteArray codec *)

Example unparse_empty : byteArrayUnparse [] = B "@ByteArray()".
Proof. reflexivity. Qed.

Example unparse_ab1 : byteArrayUnparse [xab; "1"] = B "@ByteArray(\xab\x31)".
Proof. reflexivity. Qed.

Example parse_unparse_ab1 :
  byteArrayParse (byteArrayUnparse [xab; "1"; x00; "f"; x01; ")"; x22])
  = Some [xab; "1"; x00; "f"; x01; ")"; x22].
Proof. reflexivity. Qed.

Lemma unparseByte_fragmentFor (b : byte) (f : bool) :
  fragmentFor b (fst (byteArrayUnparseByte b f))
    (snd (byteArrayUnparseByte b f)) = true.
Proof. destruct b, f; vm_compute; reflexivity. Qed.

Lemma option_byte_eqb_true (o : option byte) (b : byte) :
  option_byte_eqb o b = true -> o = Some b.
Proof.
  destruct o as [v|]; cbn; [|discriminate].
  intros H. apply Byte.byte_dec_bl in H. now subst.
Qed.

Ltac split_andb :=
  repeat match goal with
    | H : _ && _ = true |- _ => apply andb_prop in H; destruct H
    | H : Byte.eqb _ _ = true |- _ => apply Byte.byte_dec_bl in H; subst
    | H : negb _ = true |- _ => apply negb_true_iff in H
    | H : option_byte_eqb _ _ = true |- _ => apply option_byte_eqb_true in H
    end.

Ltac rewrite_facts :=
  repeat match goal with
    | H : ?x = _ |- context [?x] => rewrite H
    end.

Lemma parseBody_fragmentFor (b : byte) (fr : list byte) (flag : bool)
    (rest : list byte) :
  fragmentFor b fr flag = true ->
  (flag = true -> startsNonHex rest) ->
  byteArrayParseBody (fr ++ rest) = cons b <$> byteArrayParseBody rest.
Proof.
  intros Hfr Hrest.
  destruct fr as [|c [|e [|h1 [|h2 [|]]]]]; cbn [fragmentFor] in Hfr;
    try discriminate; split_andb; cbn [app byteArrayParseBody];
    change (Byte.eqb x5c x5c) with true;
    change (Byte.eqb "x" "x") with true; cbn iota.
  - rewrite_facts. reflexivity.
  - rewrite_facts. reflexivity.
  - specialize (Hrest eq_refl).
    destruct rest as [|r rest']; cbn [startsNonHex] in Hrest;
      rewrite_facts; reflexivity.
  - rewrite_facts. reflexivity.
Qed.

(** One fragment is read back as its byte, whatever follows it, as long as
    no hex digit follows a fragment that sets the flag. *)
Lemma parseBody_fragment (b : byte) (f : bool) (rest : list byte) :
  (snd (byteArrayUnparseByte b f) = true -> startsNonHex rest) ->
  byteArrayParseBody (fst (byteArrayUnparseByte b f) ++ rest)
  = cons b <$> byteArrayParseBody rest.
Proof.
  intros H. eapply parseBody_fragmentFor; [apply unparseByte_fragmentFor|exact H].
Qed.

Lemma unparseByte_headNonHex (b : byte) :
  headNonHex (fst (byteArrayUnparseByte b true)) = true.
Proof. destruct b; vm_compute; reflexivity. Qed.

(** After a fragment that sets the flag, the next fragment never starts
    with a hex digit. *)
Lemma unparseLoop_startsNonHex (bs : list byte) :
  startsNonHex (concat (unparseLoop bs true)).
Proof.
  destruct bs as [|b bs]; [exact I|].
  cbn [unparseLoop].
  pose proof (unparseByte_headNonHex b) as H.
  destruct (byteArrayUnparseByte b true) as [bb f'].
  cbn [fst concat] in *.
  destruct bb as [|c bb]; [discriminate|].
  cbn in *. now apply negb_true_iff in H.
Qed.

Lemma parseBody_unparseLoop (bs : list byte) (f : bool) :
  byteArrayParseBody (concat (unparseLoop bs f)) = Some bs.
Proof.
  revert f. induction bs as [|b bs IH]; intros f; [reflexivity|].
  cbn [unparseLoop].
  pose proof (parseBody_fragment b f) as Hfrag.
  destruct (byteArrayUnparseByte b f) as [bb f'].
  cbn [concat fst snd] in *.
  rewrite Hfrag.
  - rewrite IH. reflexivity.
  - intros ->. apply unparseLoop_startsNonHex.
Qed.

Lemma hasPrefix_app (p s : list byte) : hasPrefix (p ++ s) p = true.
Proof.
  induction p as [|c p IH]; [reflexivity|].
  cbn. rewrite IH. destruct c; reflexivity.
Qed.

Lemma byteArrayUnparse_shape (bs : list byte) :
  byteArrayUnparse bs
  = byteArrayPrefix ++ concat (unparseLoop bs false) ++ byteArraySuffix.
Proof.
  unfold byteArrayUnparse.
  rewrite !concat_app. cbn [concat]. rewrite !app_nil_r. reflexivity.
Qed.

(** C1. Decoding the encoding of any byte sequence gives the sequence
    back: [byteArrayParse (byteArrayUnparse bs) = Some bs]. *)
Theorem byteArrayParse_unparse (bs : list byte) :
  byteArrayParse (byteArrayUnparse bs) = Some bs.
Proof.
  rewrite byteArrayUnparse_shape.
  set (body := concat (unparseLoop bs false)).
  unfold byteArrayParse.
  rewrite hasPrefix_app.
  assert (Hsuf : hasSuffix (byteArrayPrefix ++ body ++ byteArraySuffix)
                   byteArraySuffix = true).
  { unfold hasSuffix. rewrite !rev_app_distr, <- app_assoc.
    apply hasPrefix_app. }
  rewrite Hsuf. cbn [andb].
  rewrite skipn_app, skipn_all, Nat.sub_diag. cbn [skipn app].
  rewrite !length_app.
  replace (length byteArrayPrefix + (length body + length byteArraySuffix)
           - length byteArrayPrefix - length byteArraySuffix)
    with (length body) by lia.
  rewrite drop_0, take_app_length.
  apply parseBody_unparseLoop.
Qed.

(** C2. Encoding [{0xAB, '1'}] hex-escapes both bytes: [0xAB] has no
    other form, and ['1'], printable when it stands alone, is escaped too
    because the fragment before it was a hex escape. *)
Theorem unparse_ab_1_both_escaped :
  byteArrayUnparse [xab; "1"] = B "@ByteArray(\xab\x31)"
  /\ byteArrayUnparseByte xab false = (B "\xab", true)
  /\ byteArrayUnparseByte "1" true = (B "\x31", true)
  /\ byteArrayIsPrintable "1" = true
  /\ byteArrayUnparseByte "1" false = (B "1", false).
Proof. repeat split. Qed.

(** C3. The named escape of NUL sets the flag, so a hex digit right after
    a NUL is hex-escaped; every other named escape clears it, so a hex
    digit right after one of them is emitted as it is. *)
Theorem nul_sets_flag_others_clear (h : byte) (f : bool) :
  byteArrayIsHex h = true ->
  byteArrayUnparseByte x00 f = (B "\0", true)
  /\ unparseLoop [x00; h] f = [B "\0"; fst (byteArrayFormatEscaped h)]
  /\ forall s, In s namedEscapesButNul ->
       snd (byteArrayUnparseByte s f) = false
       /\ unparseLoop [s; h] f = [fst (byteArrayFormatSpecial s); [h]].
Proof.
  intros Hh.
  assert (Hp : byteArrayIsPrintable h = true)
    by (destruct h; try discriminate Hh; reflexivity).
  assert (Hnul : byteArrayUnparseByte x00 f = (B "\0", true))
    by (destruct f; reflexivity).
  split; [exact Hnul|split].
  - cbn [unparseLoop]. rewrite Hnul.
    unfold byteArrayUnparseByte at 1. rewrite Hh. cbn [andb].
    destruct (byteArrayFormatEscaped h); reflexivity.
  - intros s Hs.
    assert (Hs' : byteArrayUnparseByte s f = (fst (byteArrayFormatSpecial s), false)).
    { cbn in Hs.
      repeat (destruct Hs as [<-|Hs]; [destruct f; reflexivity|]).
      destruct Hs. }
    split; [rewrite Hs'; reflexivity|].
    cbn [unparseLoop]. rewrite Hs'.
    unfold byteArrayUnparseByte. rewrite andb_false_r, Hp. reflexivity.
Qed.

Lemma nul_sets_flag_others_clear_witness :
  byteArrayUnparseByte x00 false = (B "\0", true)
  /\ unparseLoop [x00; "a"] false = [B "\0"; B "\x61"]
  /\ unparseLoop [x0a; "a"] false = [B "\n"; B "a"].
Proof.
  destruct (nul_sets_flag_others_clear "a" false eq_refl) as (H1 & H2 & H3).
  split; [exact H1|split; [exact H2|]].
  apply (H3 x0a). cbn. tauto.
Defined.

(** The parser reads a hex escape of one digit as well as one of two. *)
Example parse_one_and_two_digits :
  byteArrayParse (B "@ByteArray(\x1\x01\x1f\xA)") = Some [x01; x01; x1f; x0a]
  /\ byteArrayParse (B "@ByteArray(\xg)") = None
  /\ byteArrayParse (B "ByteArray()") = None.
Proof. vm_compute. repeat split. Qed.

(** ** The fingerprint of a certificate *)

Lemma checkSum_length (msg : list byte) :
  length (sha1.checkSum msg) = sha1.Size.
Proof.
  unfold sha1.checkSum.
  destruct (sha1.blocks _ _ _) as [[[[h0 h1] h2] h3] h4].
  reflexivity.
Qed.

Lemma EncodeToString_cons (b : byte) (src : list byte) :
  hex.EncodeToString (b :: src)
  = [hex.digit (N.shiftr (byte_val b) 4); hex.digit (N.land (byte_val b) 15)]
    ++ hex.EncodeToString src.
Proof. reflexivity. Qed.

Lemma EncodeToString_length (src : list byte) :
  length (hex.EncodeToString src) = 2 * length src.
Proof.
  induction src as [|b src IH]; [reflexivity|].
  rewrite EncodeToString_cons, length_app, IH. cbn [length]. lia.
Qed.

Lemma digit_lower (n : N) : isLowerHexDigit (hex.digit n) = true.
Proof.
  unfold hex.digit.
  generalize (N.to_nat n). intros k.
  do 17 (destruct k as [|k]; [reflexivity|]).
  destruct k; reflexivity.
Qed.

Lemma EncodeToString_lower (src : list byte) :
  forallb isLowerHexDigit (hex.EncodeToString src) = true.
Proof.
  induction src as [|b src IH]; [reflexivity|].
  rewrite EncodeToString_cons, forallb_app, IH. cbn [forallb].
  rewrite !digit_lower. reflexivity.
Qed.

Lemma digestForCertificate_eq (cert : list byte) :
  digestForCertificate cert = (hex.EncodeToString (sha1.checkSum cert), None).
Proof. reflexivity. Qed.

(** C4. The fingerprint is a function of the DER bytes alone: it never
    fails, and it is the SHA-1 digest of the bytes written as 40
    lower-case hexadecimal digits with nothing between them. *)
Theorem digestForCertificate_sha1_hex (cert : list byte) :
  digestForCertificate cert = (hex.EncodeToString (sha1.checkSum cert), None)
  /\ length (fst (digestForCertificate cert)) = 40
  /\ forallb isLowerHexDigit (fst (digestForCertificate cert)) = true
  /\ forall cert', cert' = cert ->
       digestForCertificate cert' = digestForCertificate cert.
Proof.
  pose proof (digestForCertificate_eq cert) as H.
  rewrite H. cbn [fst].
  repeat split.
  - rewrite EncodeToString_length, checkSum_length. reflexivity.
  - apply EncodeToString_lower.
  - intros cert' ->. exact H.
Qed.

Example digest_of_sample :
  digestForCertificate (B "foobar")
  = (B "8843d7f92416211de9ebb963ff4ce28125932878", None).
Proof. vm_compute. reflexivity. Qed.

(** ** Storing the certificate in the database *)

Lemma countLoop_absent (fuel : nat) (s old : list byte) :
  strings.Index s old = None -> strings.countLoop fuel s old = 0.
Proof. intros H. destruct fuel; cbn; [|rewrite H]; reflexivity. Qed.

(** Replacing a pattern that does not occur changes nothing. *)
Lemma Replace_absent (s old new : list byte) (n : Z) :
  strings.Contains s old = false -> strings.Replace s old new n = s.
Proof.
  unfold strings.Contains, strings.Replace, strings.Count.
  destruct (strings.Index s old) eqn:E; [discriminate|]. intros _.
  destruct old; [reflexivity|].
  destruct (_ || _); [reflexivity|].
  rewrite countLoop_absent by exact E. reflexivity.
Qed.

Lemma World_eta (w : World) :
  {| files := files w; readOnly := readOnly w |} = w.
Proof. destruct w; reflexivity. Qed.

(** Writing back what a file holds leaves the file store as it is. *)
Lemma WriteFile_same (name : string) (data : list byte) (w : World) :
  files w !! name = Some data -> snd (WriteFile name data w) = w.
Proof.
  intros H. unfold WriteFile. case_bool_decide; [reflexivity|].
  cbn [snd]. rewrite insert_id by exact H. apply World_eta.
Qed.

Lemma db_inv (c : client) (w : World) (d : dbData) :
  db c w = inl d ->
  filename d = databaseFile c /\ files w !! databaseFile c = Some (content d).
Proof.
  unfold db, ReadFile.
  destruct (files w !! databaseFile c) eqn:E; [|discriminate].
  intros [= <-]. split; reflexivity.
Qed.

(** The guard of [storeCertificate]: a host name found in the database
    ends the call at once. *)
Lemma storeCertificate_present (order : ByteOrder) (c : client)
    (hostname : list byte) (port : Z) (cert : list byte) (w : World) :
  isTheCertificateInDB c hostname w = true ->
  storeCertificate order c hostname port cert w = (None, w).
Proof. intros H. unfold storeCertificate. rewrite H. reflexivity. Qed.

(** The errors of the database are those of its file. *)
Lemma storeCertificateInDB_error (order : ByteOrder) (c : client)
    (id : list byte) (port : Z) (digest : list byte) (w : World) :
  fst (storeCertificateInDB order c id port digest w)
  <> Some errInvalidCertificate.
Proof.
  unfold storeCertificateInDB, write, WriteFile, db, ReadFile.
  destruct (files w !! databaseFile c); cbn [filename].
  - case_bool_decide; cbn [fst]; discriminate.
  - cbn [fst]. discriminate.
Qed.

(** C10. The database is looked at before the certificate: with the host
    name in the database the call succeeds and changes nothing whatever
    the certificate bytes are, and a call that answers "invalid
    certificate" is one whose host name is not in the database and whose
    bytes have no PEM block of type CERTIFICATE. *)
Theorem storeCertificate_checks_database_first (order : ByteOrder)
    (c : client) (hostname : list byte) (port : Z) (cert : list byte)
    (w : World) :
  (isTheCertificateInDB c hostname w = true ->
   storeCertificate order c hostname port cert w = (None, w))
  /\ (fst (storeCertificate order c hostname port cert w)
      = Some errInvalidCertificate ->
      isTheCertificateInDB c hostname w = false
      /\ (pem.Type_ <$> pem.Decode cert) <> Some (B "CERTIFICATE")).
Proof.
  split; [apply storeCertificate_present|].
  unfold storeCertificate.
  destruct (isTheCertificateInDB c hostname w); [discriminate|].
  intros H. split; [reflexivity|].
  destruct (pem.Decode cert) as [block|]; [|discriminate].
  cbn [fmap option_fmap option_map].
  destruct (bytes_eqb (pem.Type_ block) (B "CERTIFICATE")) eqn:Ety.
  - exfalso. cbn [negb] in H. rewrite digestForCertificate_eq in H.
    revert H. apply storeCertificateInDB_error.
  - intros [= Heq]. rewrite Heq in Ety. discriminate Ety.
Qed.

Lemma storeCertificate_checks_database_first_witness :
  storeCertificate BigEndian exampleClient (B "abc.onion") 1234
    (B "not a certificate") (worldWithDatabase (B "xx abc.onion yy"))
  = (None, worldWithDatabase (B "xx abc.onion yy"))
  /\ isTheCertificateInDB exampleClient (B "abc.onion")
       (worldWithDatabase (B "xx")) = false.
Proof.
  split.
  - apply (storeCertificate_checks_database_first BigEndian exampleClient
             (B "abc.onion") 1234 (B "not a certificate")
             (worldWithDatabase (B "xx abc.onion yy"))).
    vm_compute. reflexivity.
  - apply (storeCertificate_checks_database_first BigEndian exampleClient
             (B "abc.onion") 1234 (B "not a certificate")
             (worldWithDatabase (B "xx"))).
    vm_compute. reflexivity.
Defined.

Lemma dbData_eta (d : dbData) :
  {| filename := filename d; content := content d |} = d.
Proof. destruct d; reflexivity. Qed.

(** Without placeholders the three substitutions are the identity. *)
Lemma substitutions_absent (order : ByteOrder) (d : dbData)
    (id : list byte) (port : Z) (digest : list byte) :
  noPlaceholder order (content d) = true ->
  replaceInteger order
    (replaceString (replaceString d defaultHostToReplace id)
       defaultDigestToReplace digest)
    (uint16 defaultPortToReplace) (uint16 port) = d.
Proof.
  unfold noPlaceholder. intros H.
  apply andb_prop in H as [H Hport]. apply andb_prop in H as [Hhost Hdigest].
  apply negb_true_iff in Hhost, Hdigest, Hport.
  unfold replaceInteger, replaceString. cbn [content filename].
  rewrite (Replace_absent _ _ _ _ Hhost), (Replace_absent _ _ _ _ Hdigest),
    (Replace_absent _ _ _ _ Hport).
  apply dbData_eta.
Qed.

(** C6, as the code has it. A database with none of the three
    placeholders is written back as it was read: the call has no
    placeholder error, it answers what the write answers, which is success
    for a file that can be written, and the file store is the same
    afterwards. *)
Theorem storeCertificateInDB_no_placeholder (order : ByteOrder) (c : client)
    (id : list byte) (port : Z) (digest : list byte) (w : World)
    (d : list byte) :
  files w !! databaseFile c = Some d ->
  noPlaceholder order d = true ->
  storeCertificateInDB order c id port digest w
  = (fst (WriteFile (databaseFile c) d w), w)
  /\ (databaseFile c ∉ readOnly w ->
      storeCertificateInDB order c id port digest w = (None, w)).
Proof.
  intros Hfile Hno.
  assert (Hdb : db c w = inl {| filename := databaseFile c; content := d |})
    by (unfold db, ReadFile; rewrite Hfile; reflexivity).
  assert (Heq : storeCertificateInDB order c id port digest w
                = (fst (WriteFile (databaseFile c) d w), w)).
  { unfold storeCertificateInDB. rewrite Hdb.
    rewrite substitutions_absent by exact Hno.
    unfold write. cbn [filename content].
    rewrite (surjective_pairing (WriteFile _ _ _)).
    rewrite WriteFile_same by exact Hfile. reflexivity. }
  split; [exact Heq|].
  intros Hrw. rewrite Heq. unfold WriteFile.
  rewrite bool_decide_eq_false_2 by exact Hrw. reflexivity.
Qed.

Lemma storeCertificateInDB_no_placeholder_witness :
  storeCertificateInDB BigEndian exampleClient (B "abc.onion") 1234
    (B "8843d7f92416211de9ebb963ff4ce28125932878")
    (worldWithDatabase (B "SQLite format 3"))
  = (None, worldWithDatabase (B "SQLite format 3")).
Proof.
  apply (storeCertificateInDB_no_placeholder BigEndian exampleClient
           (B "abc.onion") 1234 (B "8843d7f92416211de9ebb963ff4ce28125932878")
           (worldWithDatabase (B "SQLite format 3")) (B "SQLite format 3")).
  - vm_compute. reflexivity.
  - vm_compute. reflexivity.
  - vm_compute. intros H. inversion H.
Defined.

(** C6 as the specification states it fails on the code: a database
    without placeholders is patched with success, not with an error. *)
Lemma storeCertificateInDB_no_placeholder_succeeds :
  noPlaceholder BigEndian (B "SQLite format 3") = true
  /\ noPlaceholder LittleEndian (B "SQLite format 3") = true
  /\ fst (storeCertificateInDB BigEndian exampleClient (B "abc.onion") 1234
            (B "8843d7f92416211de9ebb963ff4ce28125932878")
            (worldWithDatabase (B "SQLite format 3"))) = None
  /\ fst (storeCertificateInDB LittleEndian exampleClient (B "abc.onion") 1234
            (B "8843d7f92416211de9ebb963ff4ce28125932878")
            (worldWithDatabase (B "SQLite format 3"))) = None.
Proof. vm_compute. repeat split. Qed.




(** ** The certificate in the configuration file *)

Lemma Index_cons (c : byte) (s p : list byte) :
  strings.Index (c :: s) p
  = if hasPrefix (c :: s) p then Some 0 else S <$> strings.Index s p.
Proof. reflexivity. Qed.

(** [Index] finds the first instance. *)
Lemma Index_first (pre p post : list byte) :
  noneBefore (pre ++ p ++ post) p (length pre) ->
  strings.Index (pre ++ p ++ post) p = Some (length pre).
Proof.
  induction pre as [|c pre IH]; intros Hnone.
  - cbn [app length]. destruct (p ++ post) eqn:E.
    + destruct p; [reflexivity|discriminate].
    + rewrite Index_cons, <- E, hasPrefix_app. reflexivity.
  - cbn [app length]. rewrite Index_cons.
    pose proof (Hnone 0 ltac:(cbn; lia)) as H0.
    rewrite drop_0 in H0. cbn [app] in H0. rewrite H0.
    rewrite IH; [reflexivity|].
    intros k Hk. apply (Hnone (S k)). cbn. lia.
Qed.

Lemma Index_Some_nonempty (s p : list byte) (c : byte) (i : nat) :
  strings.Index s (c :: p) = Some i -> 0 < length s.
Proof. destruct s; [discriminate|cbn; lia]. Qed.

(** [Replace] with a count of one: the first instance gives way to [new],
    what is before it and what is after it stay. *)
Lemma Replace_once (pre old new post : list byte) :
  old <> [] ->
  bytes_eqb old new = false ->
  noneBefore (pre ++ old ++ post) old (length pre) ->
  strings.Replace (pre ++ old ++ post) old new 1 = pre ++ new ++ post.
Proof.
  intros Hold Hne Hnone.
  pose proof (Index_first pre old post Hnone) as Hidx.
  destruct old as [|c old]; [congruence|].
  unfold strings.Replace. rewrite Hne. cbn [orb Z.eqb].
  pose proof (Index_Some_nonempty _ _ _ _ Hidx) as Hlen.
  unfold strings.Count.
  destruct (length (pre ++ (c :: old) ++ post)) as [|fuel] eqn:El; [lia|].
  cbn [strings.countLoop]. rewrite Hidx. cbn [Nat.eqb].
  replace ((1 <? 0)%Z || (Z.of_nat (S _) <? 1)%Z) with false
    by (symmetry; apply orb_false_intro; [reflexivity|apply Z.ltb_ge; lia]).
  change (Z.to_nat 1) with 1.
  cbn [strings.replaceLoop]. rewrite Hidx.
  rewrite take_app_length.
  rewrite <- drop_drop, !drop_app_length.
  reflexivity.
Qed.

(** C7. The first [#CERTIFICATE] of the configuration file gives way to
    [certificate=] and the literal; what is before it and all that is
    after it, further tokens included, is written back as it was. With
    no path, or no file at the path, the call fails and writes nothing. *)
Theorem saveCertificateConfigFile_first_token (c : client)
    (cert pre post : list byte) (w : World) :
  (configFile c = ""%string \/ files w !! configFile c = None ->
   saveCertificateConfigFile c cert w = (Some errInvalidMumbleIni, w))
  /\ (configFile c <> ""%string ->
      files w !! configFile c = Some (pre ++ certificateToken ++ post) ->
      noneBefore (pre ++ certificateToken ++ post) certificateToken
        (length pre) ->
      saveCertificateConfigFile c cert w
      = WriteFile (configFile c)
          (pre ++ (B "certificate=" ++ cert) ++ post) w).
Proof.
  unfold saveCertificateConfigFile, fileExists, ReadFile. split.
  - intros [Hempty|Hnone].
    + rewrite Hempty. reflexivity.
    + rewrite Hnone. rewrite bool_decide_eq_false_2 by (intros [x Hx]; discriminate).
      rewrite orb_true_r. reflexivity.
  - intros Hpath Hfile Hfirst. rewrite Hfile.
    rewrite bool_decide_eq_true_2 by eauto.
    destruct (configFile c) as [|a path] eqn:Ec; [congruence|].
    cbn [String.length Nat.eqb orb negb].
    rewrite Replace_once; [reflexivity|discriminate|reflexivity|exact Hfirst].
Qed.

Lemma saveCertificateConfigFile_first_token_witness :
  saveCertificateConfigFile exampleClient (B "@ByteArray(0)")
    (worldWithConfig (B "a=1 #CERTIFICATE b=2 #CERTIFICATE"))
  = (None,
     worldWithConfig (B "a=1 certificate=@ByteArray(0) b=2 #CERTIFICATE"))
  /\ saveCertificateConfigFile exampleClient (B "@ByteArray(0)")
       (worldWithDatabase [])
     = (Some errInvalidMumbleIni, worldWithDatabase []).
Proof.
  split.
  - etransitivity.
    + apply (saveCertificateConfigFile_first_token exampleClient
               (B "@ByteArray(0)") (B "a=1 ") (B " b=2 #CERTIFICATE")
               (worldWithConfig (B "a=1 #CERTIFICATE b=2 #CERTIFICATE"))).
      * discriminate.
      * vm_compute. reflexivity.
      * intros k Hk. do 4 (destruct k as [|k]; [reflexivity|]).
        cbn in Hk. lia.
    + vm_compute. reflexivity.
  - apply (saveCertificateConfigFile_first_token exampleClient
             (B "@ByteArray(0)") [] [] (worldWithDatabase [])).
    right. vm_compute. reflexivity.
Defined.

(** ** The address of the certificate server *)

Lemma IndexByte_None (s : list byte) (c : byte) :
  strings.IndexByte s c = None <-> ~ In c s.
Proof.
  unfold strings.IndexByte.
  induction s as [|x s IH]; [cbn; tauto|].
  rewrite Index_cons. cbn [hasPrefix In].
  destruct (Byte.eqb c x) eqn:E; cbn [andb].
  - apply Byte.byte_dec_bl in E. subst. split; [discriminate|tauto].
  - assert (Hx : x <> c).
    { intros ->. destruct c; discriminate E. }
    destruct (strings.Index s [c]) as [i|]; cbn.
    + split; [discriminate|]. intros Hn.
      assert (Hs : ~ In c s) by tauto.
      apply IH in Hs. discriminate Hs.
    + split; [|reflexivity]. intros _ [Heq|Hin]; [tauto|].
      now apply (proj1 IH).
Qed.

Lemma LastIndexByte_None (s : list byte) (c : byte) :
  strings.Contains s [c] = false -> url.LastIndexByte s c = None.
Proof.
  unfold strings.Contains, url.LastIndexByte. intros H.
  assert (Hs : strings.IndexByte s c = None)
    by (unfold strings.IndexByte; destruct (strings.Index s [c]); congruence).
  apply IndexByte_None in Hs.
  assert (Hr : strings.IndexByte (rev s) c = None)
    by (apply IndexByte_None; rewrite <- in_rev; exact Hs).
  rewrite Hr. reflexivity.
Qed.

(** A host without a colon has no port to split off. *)
Lemma SplitHostPort_no_colon (hostport : list byte) :
  strings.Contains hostport (B ":") = false ->
  net.SplitHostPort hostport = inr (net.addrErr hostport net.missingPort).
Proof.
  intros H. unfold net.SplitHostPort.
  rewrite (LastIndexByte_None hostport ":" H). reflexivity.
Qed.

Lemma Index_byte_lt (s : list byte) (c : byte) (i : nat) :
  strings.Index s [c] = Some i -> i < length s.
Proof.
  revert i. induction s as [|x s IH]; intros i; [discriminate|].
  rewrite Index_cons. destruct (hasPrefix (x :: s) [c]).
  - intros [= <-]. cbn. lia.
  - destruct (strings.Index s [c]) as [j|]; [|discriminate].
    intros [= <-]. specialize (IH j eq_refl). cbn. lia.
Qed.

Lemma Contains_byte_In (s : list byte) (c : byte) :
  In c s -> strings.Contains s [c] = true.
Proof.
  intros Hin. unfold strings.Contains.
  destruct (strings.Index s [c]) eqn:E; [reflexivity|].
  exfalso. now apply (proj1 (IndexByte_None s c) E).
Qed.

Lemma hasSuffix_byte (s : list byte) (c : byte) :
  hasSuffix s [c] = true -> exists s', s = s' ++ [c].
Proof.
  unfold hasSuffix. cbn [rev app]. intros H.
  destruct (rev s) as [|x r] eqn:E; [discriminate|].
  cbn [hasPrefix] in H. apply andb_prop in H as [H _].
  apply Byte.byte_dec_bl in H. subst x.
  exists (rev r). rewrite <- (rev_involutive s), E. reflexivity.
Qed.

(** An IP literal in brackets with nothing after the closing bracket has
    no port to split off either. *)
Lemma SplitHostPort_bracketed (hostport : list byte) :
  hasPrefix hostport (B "[") = true ->
  hasSuffix hostport (B "]") = true ->
  isOk (net.SplitHostPort hostport) = false.
Proof.
  intros Hpre Hsuf. unfold net.SplitHostPort.
  destruct (url.LastIndexByte hostport ":") as [i|]; [|reflexivity].
  rewrite Hpre.
  destruct (strings.IndexByte hostport "]") as [e|] eqn:Ee; [|reflexivity].
  destruct (e + 1 =? length hostport)%nat eqn:Elen; [reflexivity|].
  destruct (e + 1 =? i)%nat; [|destruct (Byte.eqb _ _); reflexivity].
  destruct (strings.Contains (skipn 1 hostport) (B "[")); [reflexivity|].
  assert (Hin : strings.Contains (skipn (e + 1) hostport) (B "]") = true).
  { apply Index_byte_lt in Ee. apply Nat.eqb_neq in Elen.
    destruct (hasSuffix_byte _ _ Hsuf) as [h' ->].
    rewrite length_app in Ee, Elen. cbn [length] in Ee, Elen.
    apply Contains_byte_In.
    rewrite skipn_app. apply in_or_app. right.
    replace (e + 1 - length h') with 0 by lia. left. reflexivity. }
  rewrite Hin. reflexivity.
Qed.

(** C8, as the code has it. ["http://host:1234/path"] gives the host
    ["host"] and the port ["1234"]. ["not a url"] is parsed, with an empty
    host, and fails for its missing port. Every address that [url.Parse]
    rejects fails with the error of [url.Parse]; every address whose host
    has no colon fails with the missing-port error of
    [net.SplitHostPort]; every address whose host is an IP literal in
    brackets with nothing after it fails. An empty port is a port: the
    host of ["http://host:/path"] is split into ["host"] and [""]. *)
Theorem extractHostAndPort_cases (address : list byte) :
  extractHostAndPort (B "http://host:1234/path") = inl (B "host", B "1234")
  /\ extractHostAndPort (B "not a url")
     = inr (SplitError (net.addrErr [] net.missingPort))
  /\ extractHostAndPort (B "http://host:/path") = inl (B "host", [])
  /\ (forall e, url.Parse address = inr e ->
        extractHostAndPort address = inr (ParseError e))
  /\ (forall u, url.Parse address = inl u ->
        strings.Contains (url.Host u) (B ":") = false ->
        extractHostAndPort address
        = inr (SplitError (net.addrErr (url.Host u) net.missingPort)))
  /\ (forall u, url.Parse address = inl u ->
        hasPrefix (url.Host u) (B "[") = true ->
        hasSuffix (url.Host u) (B "]") = true ->
        isOk (extractHostAndPort address) = false).
Proof.
  split; [vm_compute; reflexivity|].
  split; [vm_compute; reflexivity|].
  split; [vm_compute; reflexivity|].
  unfold extractHostAndPort. split; [|split].
  - intros e ->. reflexivity.
  - intros u -> H. rewrite SplitHostPort_no_colon by exact H. reflexivity.
  - intros u -> Hpre Hsuf.
    pose proof (SplitHostPort_bracketed _ Hpre Hsuf) as H.
    destruct (net.SplitHostPort (url.Host u)) as [[h p]|e];
      [discriminate H|reflexivity].
Qed.

Lemma extractHostAndPort_cases_witness :
  extractHostAndPort (B "http://host/path")
  = inr (SplitError (net.addrErr (B "host") net.missingPort))
  /\ extractHostAndPort (B ":foo")
     = inr (ParseError {| url.Op := "parse"; url.URL_ := B ":foo";
                          url.Err := url.errorString "missing protocol scheme" |})
  /\ isOk (extractHostAndPort (B "http://[::1]/")) = false.
Proof.
  split; [|split].
  - apply (proj1 (proj2 (proj2 (proj2 (proj2
             (extractHostAndPort_cases (B "http://host/path"))))))
             {| url.Scheme := B "http"; url.Opaque := []; url.User := None;
                url.Host := B "host"; url.Path := B "/path";
                url.ForceQuery := false; url.RawQuery := [];
                url.Fragment := [] |});
      vm_compute; reflexivity.
  - apply (proj1 (proj2 (proj2 (proj2
             (extractHostAndPort_cases (B ":foo")))))).
    vm_compute. reflexivity.
  - eapply (proj2 (proj2 (proj2 (proj2 (proj2
              (extractHostAndPort_cases (B "http://[::1]/")))))));
      vm_compute; reflexivity.
Defined.

(** C8 as the specification states it fails on the code: the host of
    ["http://host:/path"] has no port after its colon, and the address is
    accepted, with the empty port; so is ["http://[::1]:/"]. *)
Lemma extractHostAndPort_empty_port :
  extractHostAndPort (B "http://host:/path") = inl (B "host", [])
  /\ extractHostAndPort (B "http://[::1]:/") = inl (B "::1", []).
Proof. vm_compute. split; reflexivity. Qed.

Example extractHostAndPort_vectors :
  extractHostAndPort (B "http://host/path")
  = inr (SplitError (net.addrErr (B "host") net.missingPort))
  /\ extractHostAndPort (B "http://[::1]/")
     = inr (SplitError (net.addrErr (B "[::1]") net.missingPort))
  /\ extractHostAndPort (B "http://host:port/")
     = inr (ParseError {| url.Op := "parse"; url.URL_ := B "http://host:port/";
                          url.Err := url.invalidPort (B ":port") |})
  /\ extractHostAndPort (B "http://a:b:1/")
     = inr (SplitError (net.addrErr (B "a:b:1") net.tooManyColons))
  /\ extractHostAndPort (B "http://abc.onion:64738")
     = inl (B "abc.onion", B "64738").
Proof. vm_compute. repeat split. Qed.

(** ** Generating the certificate *)

Lemma template_as_specified (now : time.Time) : templateAsSpecified now.
Proof.
  unfold templateAsSpecified. cbn.
  repeat split; try (unfold time.Add, time.Hour, time.Second; lia).
  - destruct u; cbn; intros H; try discriminate H; tauto.
  - intros [->| ->]; reflexivity.
Qed.

Lemma mode0600_owner_only : ownerReadWriteOnly os.mode0600.
Proof.
  intros i. change os.mode0600 with 384%N. split.
  - intros H.
    destruct (N.ltb_spec i 9) as [Hlt|Hge].
    + assert (Hi : (i = 0 \/ i = 1 \/ i = 2 \/ i = 3 \/ i = 4 \/ i = 5
                    \/ i = 6 \/ i = 7 \/ i = 8)%N) by lia.
      repeat (destruct Hi as [->|Hi]; [try discriminate H; tauto|]).
      subst i. tauto.
    + rewrite N.bits_above_log2 in H; [discriminate|].
      change (N.log2 384) with 8%N. lia.
  - intros [->| ->]; reflexivity.
Qed.

(** A run of [genCertInto] that succeeds is this run: it asks for an
    RSA key of 2048 bits, signs the template with that key, and writes
    the certificate and the key as PEM to the two paths, each opened for
    creation with mode 0600. *)
Lemma genCertInto_success (certFilename keyFilename : string)
    (tr : list event) :
  runs (genCertInto certFilename keyFilename) tr None ->
  exists now priv certbuf keybuf file file2,
    tr = successfulTrace certFilename keyFilename now priv certbuf keybuf
           file file2
    /\ templateAsSpecified now
    /\ ownerReadWriteOnly os.mode0600.
Proof.
  intros H. cbn in H.
  destruct H as (now & tr1 & -> & H).
  destruct H as ([priv|e] & tr2 & -> & H); cbn in H; [|destruct H; discriminate].
  destruct H as ([certbuf|e] & tr3 & -> & H); cbn in H;
    [|destruct H; discriminate].
  destruct H as (keybuf & tr4 & -> & H).
  destruct H as ([file|e] & tr5 & -> & H); cbn in H;
    [|destruct H; discriminate].
  destruct H as ([e|] & tr6 & -> & H); cbn in H.
  { destruct H as ([] & tr7 & -> & H). destruct H. discriminate. }
  destruct H as ([file2|e] & tr7 & -> & H); cbn in H.
  2: { destruct H as ([] & tr8 & -> & H). destruct H. discriminate. }
  destruct H as (err & tr8 & -> & H).
  destruct H as ([] & tr9 & -> & H).
  destruct H as ([] & tr10 & -> & H).
  destruct H as [-> ->].
  exists now, priv, certbuf, keybuf, file, file2.
  split; [reflexivity|].
  split; [apply template_as_specified|apply mode0600_owner_only].
Qed.

Lemma genCertInto_success_witness :
  exists now priv certbuf keybuf file file2,
    successfulTrace "cert.pem" "key.pem" 1600000000000000000%Z toyKey
      (B "DER of the certificate") (B "DER of the key") 3 4
    = successfulTrace "cert.pem" "key.pem" now priv certbuf keybuf
        file file2
    /\ templateAsSpecified now
    /\ ownerReadWriteOnly os.mode0600.
Proof.
  apply (genCertInto_success "cert.pem" "key.pem"
           (successfulTrace "cert.pem" "key.pem" 1600000000000000000%Z toyKey
              (B "DER of the certificate") (B "DER of the key") 3 4)).
  cbn. repeat eexists.
Defined.

(** Runs that do not succeed: a failure of a call is the answer of
    [genCertInto], and a file that was opened is closed all the same. *)
Example genCertInto_key_file_fails :
  runs (genCertInto "cert.pem" "key.pem")
    [ Ev Now 0%Z;
      Ev (GenerateKey 2048) (inl toyKey);
      Ev (CreateCertificate (certTemplate 0%Z) (certTemplate 0%Z)
            (rsa.Public toyKey) toyKey) (inl [x30]);
      Ev (MarshalPKCS1PrivateKey toyKey) [x30];
      Ev (OpenFile "cert.pem" createFlags os.mode0600) (inl 3);
      Ev (Write 3 (pem.EncodeToMemory
                     {| pem.Type_ := B "CERTIFICATE"; pem.Bytes := [x30] |}))
         None;
      Ev (OpenFile "key.pem" createFlags os.mode0600)
         (inr "permission denied"%string);
      Ev (CloseAndIgnore 3) tt ]
    (Some "permission denied"%string).
Proof. cbn. repeat eexists. Qed.

(** *** What the run leaves in the files *)










(** ** More on the @ByteArray literal *)

Lemma fragment_printable (b : byte) (f : bool) :
  forallb isPrintableASCII (fst (byteArrayUnparseByte b f)) = true.
Proof. destruct b, f; vm_compute; reflexivity. Qed.

Lemma unparseLoop_cons (b : byte) (bs : list byte) (f : bool) :
  unparseLoop (b :: bs) f
  = fst (byteArrayUnparseByte b f)
    :: unparseLoop bs (snd (byteArrayUnparseByte b f)).
Proof. cbn [unparseLoop]. destruct (byteArrayUnparseByte b f); reflexivity. Qed.

Lemma body_printable (bs : list byte) (f : bool) :
  forallb isPrintableASCII (concat (unparseLoop bs f)) = true.
Proof.
  revert f. induction bs as [|b bs IH]; intros f; [reflexivity|].
  rewrite unparseLoop_cons. cbn [concat].
  rewrite forallb_app, fragment_printable, IH. reflexivity.
Qed.

(** X1. The literal of any bytes is made of printable ASCII characters only:
    no control character, no byte above the tilde. *)
Theorem byteArrayUnparse_printable_ascii (bs : list byte) :
  forallb isPrintableASCII (byteArrayUnparse bs) = true.
Proof.
  rewrite byteArrayUnparse_shape, !forallb_app, body_printable.
  reflexivity.
Qed.

Lemma fragment_length (b : byte) (f : bool) :
  1 <= length (fst (byteArrayUnparseByte b f)) <= 4.
Proof. destruct b, f; vm_compute; lia. Qed.

Lemma body_length (bs : list byte) (f : bool) :
  length bs <= length (concat (unparseLoop bs f)) <= 4 * length bs.
Proof.
  revert f. induction bs as [|b bs IH]; intros f; [cbn; lia|].
  rewrite unparseLoop_cons. cbn [concat length]. rewrite length_app.
  pose proof (fragment_length b f).
  specialize (IH (snd (byteArrayUnparseByte b f))). lia.
Qed.

(** X2. The literal of [n] bytes has between [n + 12] and [4 n + 12]
    characters: a byte takes one to four of them, the prefix eleven and
    the suffix one. *)
Theorem byteArrayUnparse_length (bs : list byte) :
  length bs + 12 <= length (byteArrayUnparse bs) <= 4 * length bs + 12.
Proof.
  rewrite byteArrayUnparse_shape, !length_app.
  pose proof (body_length bs false).
  change (length byteArrayPrefix) with 11.
  change (length byteArraySuffix) with 1. lia.
Qed.

(** X3. Two byte sequences with the same literal are the same sequence. *)
Theorem byteArrayUnparse_injective (a b : list byte) :
  byteArrayUnparse a = byteArrayUnparse b -> a = b.
Proof.
  rewrite !byteArrayUnparse_shape. intros H.
  apply app_inv_head in H. apply app_inv_tail in H.
  pose proof (parseBody_unparseLoop a false) as Ha.
  rewrite H, parseBody_unparseLoop in Ha. now inversion Ha.
Qed.

Lemma byteArrayUnparse_injective_witness :
  [x00; "a"] = [x00; "a"].
Proof.
  apply (byteArrayUnparse_injective [x00; "a"] [x00; "a"]). reflexivity.
Defined.

Lemma unparseLoop_app (a b : list byte) (f : bool) :
  unparseLoop (a ++ b) f = unparseLoop a f ++ unparseLoop b (flagAfter a f).
Proof.
  revert f. induction a as [|x a IH]; intros f; [reflexivity|].
  cbn [app flagAfter]. rewrite !unparseLoop_cons, IH. reflexivity.
Qed.

Lemma withoutSuffix_unparse (a : list byte) :
  withoutSuffix (byteArrayUnparse a)
  = byteArrayPrefix ++ concat (unparseLoop a false).
Proof.
  unfold withoutSuffix. rewrite byteArrayUnparse_shape.
  rewrite app_assoc, length_app, Nat.add_sub. apply take_app_length.
Qed.

Lemma withoutPrefix_unparse (b : list byte) :
  withoutPrefix (byteArrayUnparse b)
  = concat (unparseLoop b false) ++ byteArraySuffix.
Proof.
  unfold withoutPrefix. rewrite byteArrayUnparse_shape.
  apply drop_app_length.
Qed.

(** X4. The literal of [a ++ b] is the literal of [a] without its closing
    parenthesis followed by the literal of [b] without its prefix,
    provided the flag is clear after [a]: the bytes after such a point
    are encoded as they are at the start of a sequence. *)
Theorem byteArrayUnparse_app (a b : list byte) :
  flagAfter a false = false ->
  byteArrayUnparse (a ++ b)
  = withoutSuffix (byteArrayUnparse a) ++ withoutPrefix (byteArrayUnparse b).
Proof.
  intros Hflag.
  rewrite withoutSuffix_unparse, withoutPrefix_unparse.
  rewrite byteArrayUnparse_shape, unparseLoop_app, Hflag, concat_app.
  rewrite <- !app_assoc. reflexivity.
Qed.

Lemma byteArrayUnparse_app_witness :
  byteArrayUnparse ([xab; "z"] ++ ["1"; x00])
  = withoutSuffix (byteArrayUnparse [xab; "z"])
    ++ withoutPrefix (byteArrayUnparse ["1"; x00]).
Proof.
  apply (byteArrayUnparse_app [xab; "z"] ["1"; x00]). reflexivity.
Defined.

(** X5. With the flag set after [a] the two literals cannot be joined like
    this when [b] starts with a hex digit: that digit is escaped in the
    literal of [a ++ b] and not in the literal of [b]. In the literal of
    [a ++ b] no hex digit stands right after the escape that set the
    flag. *)
Theorem byteArrayUnparse_app_flag_set (a b : list byte) (f : bool) :
  flagAfter a f = true ->
  concat (unparseLoop (a ++ b) f)
  = concat (unparseLoop a f) ++ concat (unparseLoop b true)
  /\ startsNonHex (concat (unparseLoop b true)).
Proof.
  intros Hflag. split.
  - rewrite unparseLoop_app, Hflag, concat_app. reflexivity.
  - apply unparseLoop_startsNonHex.
Qed.

Lemma byteArrayUnparse_app_flag_set_witness :
  concat (unparseLoop ([xab] ++ ["1"]) false)
  = concat (unparseLoop [xab] false) ++ concat (unparseLoop ["1"] true)
  /\ startsNonHex (concat (unparseLoop ["1"] true)).
Proof.
  apply (byteArrayUnparse_app_flag_set [xab] ["1"] false). reflexivity.
Defined.

(** X6. The tables of the encoder agree with one another: the bytes that
    [byteArrayIsSpecial] accepts are those for which
    [byteArrayFormatSpecial] has an escape, none of them is printable, a
    digit is a hex digit and a hex digit is printable. *)
Theorem byteArray_tables_agree (b : byte) :
  byteArrayIsSpecial b
  = negb (bytes_eqb (fst (byteArrayFormatSpecial b)) [])
  /\ byteArrayIsPrintable b && byteArrayIsSpecial b = false
  /\ implb (byteArrayIsDigit b) (byteArrayIsHex b) = true
  /\ implb (byteArrayIsHex b) (byteArrayIsPrintable b) = true.
Proof. destruct b; vm_compute; repeat split. Qed.

(** X7. A hex escape is [\x] and the shortest lower-case hexadecimal numeral
    of the byte, one digit below sixteen and two from there on, and it
    always sets the flag. *)
Theorem byteArrayFormatEscaped_shortest (b : byte) :
  fst (byteArrayFormatEscaped b)
  = B "\x" ++ skipn 2 (fst (byteArrayFormatEscaped b))
  /\ shortestHexOf b (skipn 2 (fst (byteArrayFormatEscaped b))) = true
  /\ snd (byteArrayFormatEscaped b) = true.
Proof. destruct b; vm_compute; repeat split. Qed.

(** ** More on storing the certificate *)

(** X8. A database that cannot be loaded counts as one without the host name:
    the certificate is still checked first, a bad one is refused as
    invalid, and a good one gets the error of the load. Nothing is
    written either way. *)
Theorem storeCertificate_database_unreadable (order : ByteOrder)
    (c : client) (hostname : list byte) (port : Z) (cert : list byte)
    (w : World) (e : error) :
  db c w = inr e ->
  isTheCertificateInDB c hostname w = false
  /\ storeCertificate order c hostname port cert w
     = (Some (if hasCertificateBlock cert then e else errInvalidCertificate),
        w).
Proof.
  intros Hdb.
  assert (Hin : isTheCertificateInDB c hostname w = false)
    by (unfold isTheCertificateInDB; rewrite Hdb; reflexivity).
  split; [exact Hin|].
  unfold storeCertificate, hasCertificateBlock. rewrite Hin.
  destruct (pem.Decode cert) as [block|]; [|reflexivity].
  destruct (bytes_eqb (pem.Type_ block) (B "CERTIFICATE")); [|reflexivity].
  cbn [negb]. rewrite digestForCertificate_eq.
  unfold storeCertificateInDB. rewrite Hdb. reflexivity.
Qed.

Lemma storeCertificate_database_unreadable_witness :
  storeCertificate BigEndian exampleClient (B "abc.onion") 1234 pemSample
    worldWithoutDatabase
  = (Some "open: no such file or directory"%string, worldWithoutDatabase)
  /\ storeCertificate BigEndian exampleClient (B "abc.onion") 1234
       (B "not a certificate") worldWithoutDatabase
     = (Some errInvalidCertificate, worldWithoutDatabase).
Proof.
  split.
  - apply (storeCertificate_database_unreadable BigEndian exampleClient
             (B "abc.onion") 1234 pemSample worldWithoutDatabase
             "open: no such file or directory"%string).
    vm_compute. reflexivity.
  - apply (storeCertificate_database_unreadable BigEndian exampleClient
             (B "abc.onion") 1234 (B "not a certificate")
             worldWithoutDatabase "open: no such file or directory"%string).
    vm_compute. reflexivity.
Defined.

Lemma uint16_wraps (port k : Z) : uint16 (port + 65536 * k) = uint16 port.
Proof.
  unfold uint16. f_equal.
  rewrite Z.mul_comm, Z.mod_add by lia. reflexivity.
Qed.

(** X9. The port is stored as [uint16(port)]: a port and the same port plus
    any multiple of 65536 give the same patch, so a port outside
    [0..65535] is stored as another port and no error is raised. *)
Theorem storeCertificate_port_wraps (order : ByteOrder) (c : client)
    (hostname : list byte) (port k : Z) (cert : list byte) (w : World)
    (digest : list byte) :
  storeCertificateInDB order c hostname (port + 65536 * k) digest w
  = storeCertificateInDB order c hostname port digest w
  /\ storeCertificate order c hostname (port + 65536 * k) cert w
     = storeCertificate order c hostname port cert w.
Proof.
  assert (H : forall d, storeCertificateInDB order c hostname
                          (port + 65536 * k) d w
                        = storeCertificateInDB order c hostname port d w).
  { intros d. unfold storeCertificateInDB. rewrite uint16_wraps.
    reflexivity. }
  split; [apply H|].
  unfold storeCertificate.
  destruct (isTheCertificateInDB c hostname w); [reflexivity|].
  destruct (pem.Decode cert) as [block|]; [|reflexivity].
  destruct (negb _); [reflexivity|].
  rewrite digestForCertificate_eq. apply H.
Qed.

Example port_wraps_vector :
  databaseOf (snd (storeCertificate BigEndian exampleClient (B "abc.onion")
                     (65536 + 80) pemSample
                     (worldWithDatabase [x00; xfc; xe2; x00])))
  = Some [x00; x00; x50; x00].
Proof. vm_compute. reflexivity. Qed.

(** ** More on the configuration file *)

Lemma path_set (p : string) :
  p <> ""%string -> (String.length p =? 0)%nat = false.
Proof. destruct p; [congruence|reflexivity]. Qed.

(** With a path and a file at the path, the call writes the file with
    its first token replaced. *)
Lemma saveCertificateConfigFile_eq (c : client) (cert : list byte)
    (w : World) (content : list byte) :
  configFile c <> ""%string ->
  files w !! configFile c = Some content ->
  saveCertificateConfigFile c cert w
  = WriteFile (configFile c)
      (strings.Replace content certificateToken (B "certificate=" ++ cert) 1)
      w.
Proof.
  intros Hpath Hfile.
  unfold saveCertificateConfigFile, fileExists, ReadFile.
  rewrite Hfile, (path_set _ Hpath).
  rewrite bool_decide_eq_true_2 by eauto. reflexivity.
Qed.

(** X10. A configuration file without the token is written back as it is, and
    the call succeeds all the same: the certificate is not saved and the
    caller is not told. *)
Theorem saveCertificateConfigFile_no_token (c : client) (cert : list byte)
    (w : World) (content : list byte) :
  configFile c <> ""%string ->
  files w !! configFile c = Some content ->
  strings.Contains content certificateToken = false ->
  saveCertificateConfigFile c cert w
  = (fst (WriteFile (configFile c) content w), w)
  /\ (configFile c ∉ readOnly w ->
      saveCertificateConfigFile c cert w = (None, w)).
Proof.
  intros Hpath Hfile Hno.
  assert (Heq : saveCertificateConfigFile c cert w
                = (fst (WriteFile (configFile c) content w), w)).
  { rewrite (saveCertificateConfigFile_eq c cert w content Hpath Hfile).
    rewrite Replace_absent by exact Hno.
    rewrite (surjective_pairing (WriteFile _ _ _)).
    rewrite WriteFile_same by exact Hfile. reflexivity. }
  split; [exact Heq|].
  intros Hrw. rewrite Heq. unfold WriteFile.
  rewrite bool_decide_eq_false_2 by exact Hrw. reflexivity.
Qed.

Lemma saveCertificateConfigFile_no_token_witness :
  saveCertificateConfigFile exampleClient (B "@ByteArray(0)")
    (worldWithConfig (B "a=1 #certificate b=2"))
  = (None, worldWithConfig (B "a=1 #certificate b=2")).
Proof.
  apply (saveCertificateConfigFile_no_token exampleClient (B "@ByteArray(0)")
           (worldWithConfig (B "a=1 #certificate b=2"))
           (B "a=1 #certificate b=2")).
  - discriminate.
  - vm_compute. reflexivity.
  - vm_compute. reflexivity.
  - vm_compute. intros H. inversion H.
Defined.

(** X11. The call touches no file but the configuration file, and the set of
    read-only paths stays as it is. *)
Theorem saveCertificateConfigFile_frame (c : client) (cert : list byte)
    (w : World) (path : string) :
  path <> configFile c ->
  files (snd (saveCertificateConfigFile c cert w)) !! path = files w !! path
  /\ readOnly (snd (saveCertificateConfigFile c cert w)) = readOnly w.
Proof.
  intros Hpath. unfold saveCertificateConfigFile.
  destruct (_ || _); [split; reflexivity|].
  destruct (ReadFile (configFile c) w); [|split; reflexivity].
  unfold WriteFile. case_bool_decide; [split; reflexivity|].
  cbn [snd files readOnly]. split; [|reflexivity].
  apply lookup_insert_ne. congruence.
Qed.

Lemma saveCertificateConfigFile_frame_witness :
  files (snd (saveCertificateConfigFile exampleClient (B "@ByteArray(0)")
                (worldWithConfig (B "#CERTIFICATE")))) !! ".mumble.sqlite"%string
  = None.
Proof.
  apply (saveCertificateConfigFile_frame exampleClient (B "@ByteArray(0)")
           (worldWithConfig (B "#CERTIFICATE")) ".mumble.sqlite"%string).
  discriminate.
Defined.

(** X12. Saving twice is saving once when the file has one token and the saved
    line brings no new one: the second call finds no token and leaves the
    file as the first call wrote it. *)
Theorem saveCertificateConfigFile_twice (c : client)
    (cert pre post : list byte) (w : World) :
  configFile c <> ""%string ->
  configFile c ∉ readOnly w ->
  files w !! configFile c = Some (pre ++ certificateToken ++ post) ->
  noneBefore (pre ++ certificateToken ++ post) certificateToken
    (length pre) ->
  strings.Contains (pre ++ (B "certificate=" ++ cert) ++ post)
    certificateToken = false ->
  let w1 := snd (saveCertificateConfigFile c cert w) in
  saveCertificateConfigFile c cert w = (None, w1)
  /\ files w1 !! configFile c
     = Some (pre ++ (B "certificate=" ++ cert) ++ post)
  /\ saveCertificateConfigFile c cert w1 = (None, w1).
Proof.
  intros Hpath Hrw Hfile Hfirst Hno w1.
  assert (H1 : saveCertificateConfigFile c cert w
               = WriteFile (configFile c)
                   (pre ++ (B "certificate=" ++ cert) ++ post) w).
  { rewrite (saveCertificateConfigFile_eq c cert w _ Hpath Hfile).
    rewrite Replace_once; [reflexivity|discriminate|reflexivity|exact Hfirst]. }
  assert (Hw1 : w1 = {| files := <[configFile c :=
                                     pre ++ (B "certificate=" ++ cert) ++ post]>
                                   (files w);
                        readOnly := readOnly w |}).
  { unfold w1. rewrite H1. unfold WriteFile.
    rewrite bool_decide_eq_false_2 by exact Hrw. reflexivity. }
  assert (Hfile1 : files w1 !! configFile c
                   = Some (pre ++ (B "certificate=" ++ cert) ++ post)).
  { rewrite Hw1. cbn [files]. apply lookup_insert_eq. }
  split; [|split; [exact Hfile1|]].
  - rewrite H1 at 1. unfold WriteFile.
    rewrite bool_decide_eq_false_2 by exact Hrw. rewrite Hw1. reflexivity.
  - rewrite (saveCertificateConfigFile_eq c cert w1 _ Hpath Hfile1).
    rewrite Replace_absent by exact Hno.
    rewrite (surjective_pairing (WriteFile _ _ _)).
    rewrite WriteFile_same by exact Hfile1.
    unfold WriteFile. rewrite bool_decide_eq_false_2; [reflexivity|].
    rewrite Hw1. exact Hrw.
Qed.

Lemma saveCertificateConfigFile_twice_witness :
  let w := worldWithConfig (B "a=1 #CERTIFICATE b=2") in
  let w1 := snd (saveCertificateConfigFile exampleClient (B "@ByteArray(0)") w) in
  saveCertificateConfigFile exampleClient (B "@ByteArray(0)") w1 = (None, w1).
Proof.
  intros w w1.
  apply (saveCertificateConfigFile_twice exampleClient (B "@ByteArray(0)")
           (B "a=1 ") (B " b=2") w).
  - discriminate.
  - vm_compute. intros H. inversion H.
  - vm_compute. reflexivity.
  - intros k Hk. do 4 (destruct k as [|k]; [reflexivity|]). cbn in Hk. lia.
  - vm_compute. reflexivity.
Defined.

(** ** More on generating the certificate *)

(** Takes a run apart: the answers of the calls one after the other. *)
Ltac crunch_run :=
  repeat match goal with
    | H : ex _ |- _ => destruct H
    | H : _ /\ _ |- _ => destruct H
    | H : runs ?p _ _ |- _ =>
        match p with
        | context [match ?x with _ => _ end] =>
            is_var x; destruct x;
            cbn -[pem.EncodeToMemory byteArrayUnparse] in H
        end
    | H : pruns ?p _ _ |- _ =>
        match p with
        | context [match ?x with _ => _ end] =>
            is_var x; destruct x;
            cbn -[pem.EncodeToMemory byteArrayUnparse] in H
        end
    end; subst.

(** X13. [genCertInto] answers the first error that one of its calls answers,
    and [nil] when none does; after that error it makes no call but those
    that close what it opened. *)
Theorem genCertInto_first_error (certFilename keyFilename : string)
    (tr : list event) (r : option error) :
  runs (genCertInto certFilename keyFilename) tr r ->
  r = firstError tr /\ onlyClosesAfterError tr = true.
Proof.
  intros H. cbn -[pem.EncodeToMemory] in H.
  crunch_run; try (split; reflexivity); destruct r; split; reflexivity.
Qed.

Lemma genCertInto_first_error_witness :
  Some "permission denied"%string = firstError keyFileFailsTrace
  /\ onlyClosesAfterError keyFileFailsTrace = true.
Proof.
  apply (genCertInto_first_error "cert.pem" "key.pem" keyFileFailsTrace
           (Some "permission denied"%string)).
  cbn. repeat eexists.
Defined.

(** X14. Whatever happens, [genCertInto] closes every file it opened, the last
    one first, and the files it opens are the certificate file and then
    the key file, each for creation, writing and truncation with mode
    0600: no other file is opened. *)
Theorem genCertInto_opens_and_closes (certFilename keyFilename : string)
    (tr : list event) (r : option error) :
  runs (genCertInto certFilename keyFilename) tr r ->
  closed tr = rev (map snd (opened tr))
  /\ map request (opened tr)
     = firstn (length (opened tr))
         [ (certFilename, [os.O_CREATE; os.O_WRONLY; os.O_TRUNC], os.mode0600);
           (keyFilename, [os.O_CREATE; os.O_WRONLY; os.O_TRUNC], os.mode0600) ].
Proof.
  intros H. cbn -[pem.EncodeToMemory] in H.
  crunch_run; split; reflexivity.
Qed.

Lemma genCertInto_opens_and_closes_witness :
  closed keyFileFailsTrace = rev (map snd (opened keyFileFailsTrace))
  /\ map request (opened keyFileFailsTrace)
     = firstn (length (opened keyFileFailsTrace))
         [ ("cert.pem"%string, [os.O_CREATE; os.O_WRONLY; os.O_TRUNC],
            os.mode0600);
           ("key.pem"%string, [os.O_CREATE; os.O_WRONLY; os.O_TRUNC],
            os.mode0600) ].
Proof.
  apply (genCertInto_opens_and_closes "cert.pem" "key.pem" keyFileFailsTrace
           (Some "permission denied"%string)).
  cbn. repeat eexists.
Defined.

(** ** The certificate in the format of the configuration file *)

(** X16. The temporary directory is removed on every way out: a run that was
    given a directory removes that directory once, as its last call, and
    removes nothing else; a run that was given none removes nothing and
    fails. *)
Theorem generateTemporaryMumbleCertificate_cleans_up
    (Join : string -> string -> string) (Clean : string -> string)
    (tr : list osevent) (r : list byte * option error) :
  pruns (generateTemporaryMumbleCertificate Join Clean) tr r ->
  match tempDirOf tr with
  | Some dir =>
      removed tr = [dir]
      /\ exists tr' rm, tr = tr' ++ [OsEv (RemoveAll dir) rm]
  | None => removed tr = [] /\ fst r = [] /\ snd r <> None
  end.
Proof.
  intros H. cbn -[pem.EncodeToMemory byteArrayUnparse] in H.
  crunch_run; cbn -[pem.EncodeToMemory byteArrayUnparse];
    try (split; [reflexivity|split; [reflexivity|discriminate]]);
    (split; [reflexivity|]);
    match goal with
    | |- exists tr' rm, ?l = _ =>
        exists (removelast l); eexists; reflexivity
    end.
Qed.

Lemma generateTemporaryMumbleCertificate_cleans_up_witness :
  removed
    (successfulOsTrace joinWithSlash id "/tmp/w1" 0%Z toyKey [x30] [x30] 3 4
       [] [x00; "a"] None)
  = ["/tmp/w1"%string].
Proof.
  apply (generateTemporaryMumbleCertificate_cleans_up joinWithSlash id
           (successfulOsTrace joinWithSlash id "/tmp/w1" 0%Z toyKey [x30]
              [x30] 3 4 [] [x00; "a"] None)
           (byteArrayUnparse [x00; "a"], None)).
  cbn. repeat eexists.
Defined.

(** X17. A run that succeeds is this run: the directory, the calls of a
    successful [genCertInto] on [cert.pem] and [key.pem] in it, [openssl]
    with the arguments of the export to [transformed.p12], the reading
    of that file and the removal of the directory; its result is the
    literal of the bytes read. A run that fails returns the empty text
    with its error. *)
Theorem generateTemporaryMumbleCertificate_result
    (Join : string -> string -> string) (Clean : string -> string)
    (tr : list osevent) (s : list byte) (err : option error) :
  pruns (generateTemporaryMumbleCertificate Join Clean) tr (s, err) ->
  match err with
  | None =>
      exists dir now priv certbuf keybuf file file2 out data rm,
        tr = successfulOsTrace Join Clean dir now priv certbuf keybuf
               file file2 out data rm
        /\ s = byteArrayUnparse data
  | Some _ => s = []
  end.
Proof.
  intros H. cbn -[pem.EncodeToMemory byteArrayUnparse] in H.
  crunch_run;
    repeat match goal with
      | H : (_, _) = (_, _) |- _ => inversion H; clear H; subst
      end;
    try reflexivity.
  repeat match goal with
    | u : unit |- _ => destruct u
    end.
  do 10 eexists. split; reflexivity.
Qed.

Lemma generateTemporaryMumbleCertificate_result_witness :
  exists dir now priv certbuf keybuf file file2 out data rm,
    successfulOsTrace joinWithSlash id "/tmp/w1" 0%Z toyKey [x30] [x30] 3 4
      [] [x00; "a"] None
    = successfulOsTrace joinWithSlash id dir now priv certbuf keybuf
        file file2 out data rm
    /\ B "@ByteArray(\0\x61)" = byteArrayUnparse data.
Proof.
  apply (generateTemporaryMumbleCertificate_result joinWithSlash id
           (successfulOsTrace joinWithSlash id "/tmp/w1" 0%Z toyKey [x30]
              [x30] 3 4 [] [x00; "a"] None)
           (B "@ByteArray(\0\x61)") None).
  cbn. repeat eexists.
Defined.

(** X15. [genCertInto] writes nothing but the PEM block of the certificate that
    was signed, to the first file it opened, and then the PEM block of
    the encoded key, to the second: in no run, failing or not, does the
    key go to the certificate file or anything else to either file. *)
Theorem genCertInto_writes (certFilename keyFilename : string)
    (tr : list event) (r : option error) :
  runs (genCertInto certFilename keyFilename) tr r ->
  written tr
  = firstn (length (written tr))
      (combine (map snd (opened tr))
         [ pem.EncodeToMemory
             {| pem.Type_ := B "CERTIFICATE";
                pem.Bytes := certificateOf tr |};
           pem.EncodeToMemory
             {| pem.Type_ := B "RSA PRIVATE KEY"; pem.Bytes := keyOf tr |} ]).
Proof.
  intros H. cbn -[pem.EncodeToMemory] in H.
  crunch_run; cbn -[pem.EncodeToMemory]; rewrite ?app_nil_r; reflexivity.
Qed.

Lemma genCertInto_writes_witness :
  written keyFileFailsTrace
  = [ (3, pem.EncodeToMemory
            {| pem.Type_ := B "CERTIFICATE"; pem.Bytes := [x30] |}) ].
Proof.
  etransitivity.
  - apply (genCertInto_writes "cert.pem" "key.pem" keyFileFailsTrace
             (Some "permission denied"%string)).
    cbn. repeat eexists.
  - reflexivity.
Defined.


